(** * CoverArtCache: a shallow embedding of src/library/coverartcache.cpp

    The coordinator object [CoverArtCache] owns two collaborator pointers
    (the cover-art DAO and the track DAO), the queue of pending database
    updates and the set of track ids with a running future.  It reads and
    writes the process-wide [QPixmapCache].

    The embedding follows the C++ statement by statement:
    - member functions are computations in a state monad over [State];
    - every call that leaves the object (DAO methods, [CoverArtUtils]
      routines, [QImage] decoding, [QFile::exists], signal emission,
      [QtConcurrent::run]) appends one [Event] to a trace, so that
      "no collaborator was invoked" is a statement about the trace;
    - the worker functions [searchImage] and [loadImage] touch no member;
      they are computations over a trace alone;
    - the slots [imageFound] and [imageLoaded] take the future's result. *)

From stdpp Require Import base gmap strings pretty list.

Local Open Scope string_scope.
Local Open Scope list_scope.
Local Open Scope Z_scope.

(** ** Qt value types *)

(** A [QImage] is either null (default constructed, or a failed decode)
    or carries pixel data. *)
Inductive QImage : Type :=
| NullImage
| Image (w h : Z) (bits : string).

Module QImg.
Definition isNull (img : QImage) : bool :=
  match img with
  | NullImage => true
  | Image _ _ _ => false
  end.
End QImg.

Module QSize.
Record t : Type := mk { width : Z; height : Z }.
(** [QSize::isNull]: both width and height are 0. *)
Definition isNull (s : t) : bool := (width s =? 0) && (height s =? 0).
End QSize.

(** A [QPixmap] holds the image it was converted from; [QPixmap()] is the
    null pixmap. *)
Inductive QPixmap : Type :=
| Pixmap (img : QImage).

Module QPix.
Definition null : QPixmap := Pixmap NullImage.
Definition isNull (p : QPixmap) : bool :=
  match p with Pixmap img => QImg.isNull img end.
(** [pixmap.convertFromImage(img)] replaces the pixmap's content; a null
    image leaves a null pixmap. *)
Definition convertFromImage (_ : QPixmap) (img : QImage) : QPixmap := Pixmap img.
End QPix.

(** ** Structs of the source *)

Module CoverInfo.
Record t : Type := mk {
  trackId : Z;
  coverLocation : string;
  hash : string;
  trackLocation : string
}.
End CoverInfo.

(** [CoverArtDAO::CoverArtInfo], with the fields the source reads. *)
Module CoverArtInfo.
Record t : Type := mk {
  trackId : Z;
  coverLocation : string;
  hash : string;
  album : string;
  trackBaseName : string;
  trackDirectory : string;
  trackLocation : string
}.
End CoverArtInfo.

Module FutureResult.
Record t : Type := mk {
  trackId : Z;
  coverLocation : string;
  hash : string;
  croppedSize : QSize.t;
  issueRepaint : bool;
  img : QImage
}.
End FutureResult.

(** A job handed to [QtConcurrent::run], with the slot connected to its
    watcher: [searchImage] goes with [imageFound], [loadImage] with
    [imageLoaded]. *)
Inductive Job : Type :=
| SearchJob (coverInfo : CoverArtInfo.t) (croppedSize : QSize.t) (issueRepaint : bool)
| LoadJob (coverInfo : CoverArtInfo.t) (croppedSize : QSize.t) (issueRepaint : bool).

Definition isSearchJob (j : Job) : bool :=
  match j with SearchJob _ _ _ => true | LoadJob _ _ _ => false end.

(** ** Collaborators *)

(** The answers of the cover-art DAO.  Its writes are external; the model
    records them in the trace. *)
Record CoverArtDAO : Type := {
  getCoverArtInfo : Z -> CoverArtInfo.t;
  saveCoverArt : string -> string -> Z;
  saveCoverArtBatch : gmap Z (string * string) -> gset (Z * Z)
}.

Record TrackDAO : Type := {
  getTrackLocation : Z -> string
}.

(** The static routines of [CoverArtUtils] (library/coverartutils.h is not
    part of the sources at hand: they are parameters). *)
Class CoverArtUtils : Type := {
  extractEmbeddedCover : string -> QImage;
  maybeResizeImage : QImage -> Z -> QImage;
  cropImage : QImage -> QSize.t -> QImage;
  calculateHash : QImage -> string;
  searchInTrackDirectory : string -> string -> string -> string
}.

(** What the platform answers: decoding a file with [QImage(path)],
    [QFile::exists], and whether [QPixmapCache::insert] takes a pixmap
    (it refuses one whose cost exceeds the cache limit). *)
Class Platform : Type := {
  QImage_fromFile : string -> QImage;
  QFile_exists : string -> bool;
  QPixmapCache_accepts : QPixmap -> bool
}.

(** ** Trace of outgoing calls *)

Inductive Event : Type :=
(* track DAO *)
| TrackDAO_getTrackLocation (trackId : Z)
| TrackDAO_updateCoverArt (trackId coverId : Z)
| TrackDAO_updateCoverArtBatch (covers : gset (Z * Z))
(* cover-art DAO *)
| CoverArtDAO_getCoverArtInfo (trackId : Z)
| CoverArtDAO_saveCoverArt (coverLocation hash : string)
| CoverArtDAO_saveCoverArtBatch (covers : gmap Z (string * string))
(* image utilities and decoding *)
| Utils_extractEmbeddedCover (trackLocation : string)
| Utils_maybeResizeImage (img : QImage) (maxSize : Z)
| Utils_cropImage (img : QImage) (size : QSize.t)
| Utils_calculateHash (img : QImage)
| Utils_searchInTrackDirectory (dir baseName album : string)
| Decode_QImage (path : string)
| Query_QFile_exists (path : string)
(* signals *)
| Emit_pixmapFound (trackId : Z) (pixmap : QPixmap)
| Emit_requestRepaint
(* worker pool *)
| QtConcurrent_run (job : Job).

Definition Trace : Type := list Event.

Definition isDAOCall (e : Event) : bool :=
  match e with
  | TrackDAO_getTrackLocation _ | TrackDAO_updateCoverArt _ _
  | TrackDAO_updateCoverArtBatch _ | CoverArtDAO_getCoverArtInfo _
  | CoverArtDAO_saveCoverArt _ _ | CoverArtDAO_saveCoverArtBatch _ => true
  | _ => false
  end.

(** The calls that write to the persistent store. *)
Definition isDAOWrite (e : Event) : bool :=
  match e with
  | TrackDAO_updateCoverArt _ _ | TrackDAO_updateCoverArtBatch _
  | CoverArtDAO_saveCoverArt _ _ | CoverArtDAO_saveCoverArtBatch _ => true
  | _ => false
  end.

Definition isDispatch (e : Event) : bool :=
  match e with QtConcurrent_run _ => true | _ => false end.

Definition isDirectorySearch (e : Event) : bool :=
  match e with Utils_searchInTrackDirectory _ _ _ => true | _ => false end.

Definition countEvents (p : Event -> bool) (t : Trace) : nat :=
  length (List.filter p t).

(** ** State *)

Record State : Type := mkState {
  m_pCoverArtDAO : option CoverArtDAO;      (* None is NULL *)
  m_pTrackDAO : option TrackDAO;            (* None is NULL *)
  m_queueOfUpdates : gmap Z (string * string);  (* trackId -> (coverLocation, hash) *)
  m_runningIds : gset Z;
  pixmapCache : gmap string QPixmap;        (* the global QPixmapCache *)
  trace : Trace
}.

(** ** A state monad *)

Definition M (S A : Type) : Type := S -> A * S.

Definition ret {S A} (a : A) : M S A := fun s => (a, s).

Definition bind {S A B} (m : M S A) (k : A -> M S B) : M S B :=
  fun s => let (a, s') := m s in k a s'.

Declare Scope cpp_scope.
Delimit Scope cpp_scope with cpp.
Notation "'let*' x := m 'in' k" := (bind m (fun x => k))
  (at level 10, x name, m at level 100, k at level 200) : cpp_scope.
Notation "m ;; k" := (bind m (fun _ => k))
  (at level 100, k at level 200, right associativity) : cpp_scope.
Local Open Scope cpp_scope.

Definition get {S} : M S S := fun s => (s, s).
Definition modify {S} (f : S -> S) : M S unit := fun s => (tt, f s).

(** Appending to the trace, on a bare trace and on the object's state. *)
Definition log (e : Event) : M Trace unit := fun t => (tt, t ++ [e]).

Definition with_trace (f : Trace -> Trace) (s : State) : State :=
  mkState (m_pCoverArtDAO s) (m_pTrackDAO s) (m_queueOfUpdates s)
          (m_runningIds s) (pixmapCache s) (f (trace s)).

Definition with_queue (f : gmap Z (string * string) -> gmap Z (string * string))
    (s : State) : State :=
  mkState (m_pCoverArtDAO s) (m_pTrackDAO s) (f (m_queueOfUpdates s))
          (m_runningIds s) (pixmapCache s) (trace s).

Definition with_runningIds (f : gset Z -> gset Z) (s : State) : State :=
  mkState (m_pCoverArtDAO s) (m_pTrackDAO s) (m_queueOfUpdates s)
          (f (m_runningIds s)) (pixmapCache s) (trace s).

Definition with_pixmapCache (f : gmap string QPixmap -> gmap string QPixmap)
    (s : State) : State :=
  mkState (m_pCoverArtDAO s) (m_pTrackDAO s) (m_queueOfUpdates s)
          (m_runningIds s) (f (pixmapCache s)) (trace s).

(** A computation on the trace run inside the object. *)
Definition lift {A} (m : M Trace A) : M State A :=
  fun s => let (a, t) := m (trace s) in (a, with_trace (fun _ => t) s).

Definition emit (e : Event) : M State unit := lift (log e).

(** ** Qt helpers *)

Definition QString_isEmpty (s : string) : bool :=
  match s with
  | EmptyString => true
  | String _ _ => false
  end.

(** The embedded-cover sentinel compared against a location. *)
Definition ID3TAG : string := "ID3TAG".

(** Large cover art wastes space in the cache: the max side length images
    are resized to. *)
Definition kMaxCoverSize : Z := 300.

(** [QString("CoverArtCache_%1_%2x%3").arg(hash).arg(w).arg(h)].  Hashes
    are printed numbers and sizes are integers, so no argument brings a
    place marker of its own and the substitution is a concatenation. *)
Definition cacheKey (hash : string) (croppedSize : QSize.t) : string :=
  "CoverArtCache_" +:+ hash +:+ "_" +:+ pretty (QSize.width croppedSize)
    +:+ "x" +:+ pretty (QSize.height croppedSize).

(** [QHash::value(key)]: the stored pair, or a default-constructed one. *)
Definition QHash_value (q : gmap Z (string * string)) (k : Z) : string * string :=
  default (EmptyString, EmptyString) (q !! k).

Definition QHash_contains (q : gmap Z (string * string)) (k : Z) : bool :=
  match q !! k with
  | Some _ => true
  | None => false
  end.

(** Lines 113-116 of requestPixmap: a cover already found for the track
    and waiting to be written to the DB replaces the request's
    coverLocation and hash. *)
Definition pendingInfo (q : gmap Z (string * string)) (info : CoverInfo.t)
    : CoverInfo.t :=
  if QHash_contains q (CoverInfo.trackId info) then
    CoverInfo.mk (CoverInfo.trackId info)
      (fst (QHash_value q (CoverInfo.trackId info)))
      (snd (QHash_value q (CoverInfo.trackId info)))
      (CoverInfo.trackLocation info)
  else info.

Section Code.
Context {utils : CoverArtUtils} {qt : Platform}.

(** *** Outgoing calls, each leaving its mark in the trace *)

Definition call_extractEmbeddedCover (trackLocation : string) : M Trace QImage :=
  log (Utils_extractEmbeddedCover trackLocation) ;;
  ret (extractEmbeddedCover trackLocation).

Definition call_maybeResizeImage (img : QImage) (maxSize : Z) : M Trace QImage :=
  log (Utils_maybeResizeImage img maxSize) ;;
  ret (maybeResizeImage img maxSize).

Definition call_cropImage (img : QImage) (size : QSize.t) : M Trace QImage :=
  log (Utils_cropImage img size) ;;
  ret (cropImage img size).

Definition call_calculateHash (img : QImage) : M Trace string :=
  log (Utils_calculateHash img) ;;
  ret (calculateHash img).

Definition call_searchInTrackDirectory (dir baseName album : string) : M Trace string :=
  log (Utils_searchInTrackDirectory dir baseName album) ;;
  ret (searchInTrackDirectory dir baseName album).

Definition new_QImage (path : string) : M Trace QImage :=
  log (Decode_QImage path) ;;
  ret (QImage_fromFile path).

Definition call_QFile_exists (path : string) : M Trace bool :=
  log (Query_QFile_exists path) ;;
  ret (QFile_exists path).

Definition call_getTrackLocation (dao : TrackDAO) (trackId : Z) : M Trace string :=
  log (TrackDAO_getTrackLocation trackId) ;;
  ret (getTrackLocation dao trackId).

Definition call_getCoverArtInfo (dao : CoverArtDAO) (trackId : Z)
    : M Trace CoverArtInfo.t :=
  log (CoverArtDAO_getCoverArtInfo trackId) ;;
  ret (getCoverArtInfo dao trackId).

Definition call_saveCoverArt (dao : CoverArtDAO) (coverLocation hash : string)
    : M Trace Z :=
  log (CoverArtDAO_saveCoverArt coverLocation hash) ;;
  ret (saveCoverArt dao coverLocation hash).

Definition call_saveCoverArtBatch (dao : CoverArtDAO)
    (covers : gmap Z (string * string)) : M Trace (gset (Z * Z)) :=
  log (CoverArtDAO_saveCoverArtBatch covers) ;;
  ret (saveCoverArtBatch dao covers).

(** *** The global pixmap cache *)

(** [QPixmapCache::find(key, &pixmap)]: the entry, if there is one. *)
Definition QPixmapCache_find (key : string) : M State (option QPixmap) :=
  fun s => (pixmapCache s !! key, s).

(** [QPixmapCache::insert(key, pixmap)]: an earlier entry under the key is
    dropped first; the pixmap is stored unless its cost is refused.
    Replacement of other entries under memory pressure is not modelled. *)
Definition QPixmapCache_insert (key : string) (pixmap : QPixmap) : M State bool :=
  fun s =>
    if QPixmapCache_accepts pixmap
    then (true, with_pixmapCache (insert key pixmap) s)
    else (false, with_pixmapCache (delete key) s).

(** *** CoverArtCache::CoverArtCache *)

Definition CoverArtCache_new : State :=
  mkState None None ∅ ∅ ∅ [].


Definition setTrackDAO (trackdao : option TrackDAO) : M State unit :=
  modify (fun s => mkState (m_pCoverArtDAO s) trackdao (m_queueOfUpdates s)
                           (m_runningIds s) (pixmapCache s) (trace s)).

Definition trackInDBHash (trackId : Z) : M State string :=
  let* self := get in
  ret (fst (QHash_value (m_queueOfUpdates self) trackId)).

(** *** CoverArtCache::updateDB *)

Definition updateDB (forceUpdate : bool) : M State unit :=
  let* self := get in
  match m_pCoverArtDAO self, m_pTrackDAO self with
  | Some coverArtDAO, Some trackDAO =>
      if negb forceUpdate && (Z.of_nat (size (m_queueOfUpdates self)) <? 500)
      then ret tt
      else
        let* covers := lift (call_saveCoverArtBatch coverArtDAO (m_queueOfUpdates self)) in
        emit (TrackDAO_updateCoverArtBatch covers) ;;
        modify (with_queue (fun _ => ∅))
  | _, _ => ret tt
  end.

(** The destructor forces the update. *)
Definition CoverArtCache_delete : M State unit := updateDB true.

(** *** CoverArtCache::changeCoverArt *)

Definition changeCoverArt (trackId : Z) (newCoverLocation : string) : M State bool :=
  let* self := get in
  match trackId <? 1, m_pCoverArtDAO self, m_pTrackDAO self with
  | false, Some coverArtDAO, Some trackDAO =>
      modify (with_queue (delete trackId)) ;;
      if QString_isEmpty newCoverLocation then
        emit (TrackDAO_updateCoverArt trackId (-1)) ;;
        ret true
      else
        let* img :=
          (if String.eqb newCoverLocation ID3TAG then
             let* trackLocation := lift (call_getTrackLocation trackDAO trackId) in
             lift (call_extractEmbeddedCover trackLocation)
           else lift (new_QImage newCoverLocation)) in
        if QImg.isNull img then ret false
        else
          let* img := lift (call_maybeResizeImage img kMaxCoverSize) in
          let* hash := lift (call_calculateHash img) in
          (* Update DB *)
          let* coverId := lift (call_saveCoverArt coverArtDAO newCoverLocation hash) in
          emit (TrackDAO_updateCoverArt trackId coverId) ;;
          let* found := QPixmapCache_find hash in
          match found with
          | Some pixmap =>
              emit (Emit_pixmapFound trackId pixmap) ;;
              emit Emit_requestRepaint
          | None =>
              let pixmap := QPix.convertFromImage QPix.null img in
              let* inserted := QPixmapCache_insert hash pixmap in
              if inserted then
                emit (Emit_pixmapFound trackId pixmap) ;;
                emit Emit_requestRepaint
              else ret tt
          end ;;
          ret true
  | _, _, _ => ret false
  end.

(** *** CoverArtCache::requestPixmap *)

Definition requestPixmap (requestInfo : CoverInfo.t) (croppedSize : QSize.t)
    (onlyCached issueRepaint : bool) : M State QPixmap :=
  let* self := get in
  let trackId := CoverInfo.trackId requestInfo in
  match trackId <? 1, m_pCoverArtDAO self with
  | false, Some coverArtDAO =>
      (* a future is running for this track already *)
      if bool_decide (trackId ∈ m_runningIds self) then ret QPix.null
      else
        (* a cover found earlier and waiting for the DB takes over *)
        let info := pendingInfo (m_queueOfUpdates self) requestInfo in
        let key := cacheKey (CoverInfo.hash info) croppedSize in
        let* found := QPixmapCache_find key in
        match found with
        | Some pixmap =>
            (if issueRepaint then ret tt
             else emit (Emit_pixmapFound trackId pixmap)) ;;
            ret pixmap
        | None =>
            if onlyCached then ret QPix.null
            else
              let* search :=
                (if QString_isEmpty (CoverInfo.hash info) then ret true
                 else if String.eqb (CoverInfo.coverLocation info) ID3TAG then ret false
                 else
                   let* there := lift (call_QFile_exists (CoverInfo.coverLocation info)) in
                   ret (negb there)) in
              (if search : bool then
                 let* coverInfo := lift (call_getCoverArtInfo coverArtDAO trackId) in
                 emit (QtConcurrent_run (SearchJob coverInfo croppedSize issueRepaint))
               else
                 let coverInfo :=
                   CoverArtInfo.mk trackId (CoverInfo.coverLocation info)
                     (CoverInfo.hash info) EmptyString EmptyString EmptyString
                     (CoverInfo.trackLocation info) in
                 emit (QtConcurrent_run (LoadJob coverInfo croppedSize issueRepaint))) ;;
              modify (with_runningIds (fun ids => {[trackId]} ∪ ids)) ;;
              ret QPix.null
        end
  | _, _ => ret QPix.null
  end.

(** *** The workers, run off the object's thread *)

(** Load cover from the path stored in the DB. *)
Definition loadImage (coverInfo : CoverArtInfo.t) (croppedSize : QSize.t)
    (issueRepaint : bool) : M Trace FutureResult.t :=
  let coverLocation := CoverArtInfo.coverLocation coverInfo in
  let* img :=
    (if String.eqb coverLocation ID3TAG
     then call_extractEmbeddedCover (CoverArtInfo.trackLocation coverInfo)
     else new_QImage coverLocation) in
  let* img :=
    (if QSize.isNull croppedSize
     then call_maybeResizeImage img kMaxCoverSize
     else call_cropImage img croppedSize) in
  ret (FutureResult.mk (CoverArtInfo.trackId coverInfo) coverLocation
         (CoverArtInfo.hash coverInfo) croppedSize issueRepaint img).

Definition searchImage (coverInfo : CoverArtInfo.t) (croppedSize : QSize.t)
    (issueRepaint : bool) : M Trace FutureResult.t :=
  (* Looking for embedded cover art. *)
  let* img := call_extractEmbeddedCover (CoverArtInfo.trackLocation coverInfo) in
  let* embedded :=
    (if negb (QImg.isNull img) then
       let* img := call_maybeResizeImage img kMaxCoverSize in
       ret (ID3TAG, img)
     else ret (EmptyString, img)) in
  (* Looking for cover stored in track directory. *)
  let* found :=
    (if QImg.isNull (snd embedded) then
       let* coverLocation :=
         call_searchInTrackDirectory (CoverArtInfo.trackDirectory coverInfo)
           (CoverArtInfo.trackBaseName coverInfo) (CoverArtInfo.album coverInfo) in
       let* decoded := new_QImage coverLocation in
       let* img := call_maybeResizeImage decoded kMaxCoverSize in
       ret (coverLocation, img)
     else ret embedded) in
  let* hash := call_calculateHash (snd found) in
  (* adjusting the cover size according to the final purpose *)
  let* img :=
    (if negb (QSize.isNull croppedSize)
     then call_cropImage (snd found) croppedSize
     else ret (snd found)) in
  ret (FutureResult.mk (CoverArtInfo.trackId coverInfo) (fst found) hash
         croppedSize issueRepaint img).

(** *** The slots taking a finished future's result *)

Definition resultKey (res : FutureResult.t) : string :=
  cacheKey (FutureResult.hash res) (FutureResult.croppedSize res).

Definition imageLoaded (res : FutureResult.t) : M State unit :=
  let* found := QPixmapCache_find (resultKey res) in
  let pixmap := default QPix.null found in
  let* pixmap :=
    (if QPix.isNull pixmap && negb (QImg.isNull (FutureResult.img res)) then
       let pixmap := QPix.convertFromImage pixmap (FutureResult.img res) in
       QPixmapCache_insert (resultKey res) pixmap ;;
       ret pixmap
     else ret pixmap) in
  (if FutureResult.issueRepaint res
   then emit Emit_requestRepaint
   else emit (Emit_pixmapFound (FutureResult.trackId res) pixmap)) ;;
  modify (with_runningIds (fun ids => ids ∖ {[FutureResult.trackId res]})).

Definition imageFound (res : FutureResult.t) : M State unit :=
  let* found := QPixmapCache_find (resultKey res) in
  let pixmap := default QPix.null found in
  let* pixmap :=
    (if QPix.isNull pixmap then
       let pixmap := QPix.convertFromImage pixmap (FutureResult.img res) in
       QPixmapCache_insert (resultKey res) pixmap ;;
       ret pixmap
     else ret pixmap) in
  (if FutureResult.issueRepaint res
   then emit Emit_requestRepaint
   else emit (Emit_pixmapFound (FutureResult.trackId res) pixmap)) ;;
  (* update DB *)
  let* self := get in
  (if QHash_contains (m_queueOfUpdates self) (FutureResult.trackId res) then ret tt
   else
     modify (with_queue (insert (FutureResult.trackId res)
               (FutureResult.coverLocation res, FutureResult.hash res))) ;;
     (* updateDB(): forceUpdate takes the default of its declaration, false *)
     updateDB false) ;;
  modify (with_runningIds (fun ids => ids ∖ {[FutureResult.trackId res]})).

(** A dispatched job from start to finish: the worker computes the result
    (its calls are appended to the trace), then the connected slot runs. *)
Definition finished (job : Job) : M State unit :=
  match job with
  | SearchJob coverInfo croppedSize issueRepaint =>
      let* res := lift (searchImage coverInfo croppedSize issueRepaint) in
      imageFound res
  | LoadJob coverInfo croppedSize issueRepaint =>
      let* res := lift (loadImage coverInfo croppedSize issueRepaint) in
      imageLoaded res
  end.

End Code.

(** ** A concrete library, used to run the code *)

Module Demo.

Definition front : QImage := Image 100 100 "front".
Definition embedded : QImage := Image 640 480 "embedded".

(** Checksums are printed numbers; the null image has the empty hash. *)
Definition checksum (img : QImage) : string :=
  match img with
  | NullImage => EmptyString
  | Image w h bits => pretty (w * 1000 + h + Z.of_nat (String.length bits))
  end.

Definition utils : CoverArtUtils := {|
  extractEmbeddedCover loc :=
    if String.eqb loc "/music/a/song.mp3" then embedded else NullImage;
  maybeResizeImage img maxSize :=
    match img with
    | NullImage => NullImage
    | Image w h bits =>
        if (maxSize <? w) || (maxSize <? h)
        then Image (Z.min w maxSize) (Z.min h maxSize) bits
        else img
    end;
  cropImage img size :=
    match img with
    | NullImage => NullImage
    | Image _ _ bits => Image (QSize.width size) (QSize.height size) bits
    end;
  calculateHash := checksum;
  searchInTrackDirectory dir _ _ :=
    if String.eqb dir "/music/a" then "/music/a/cover.jpg" else EmptyString
|}.

(** The cache limit set by the constructor, in bytes, against 4 bytes a pixel. *)
Definition platform : Platform := {|
  QImage_fromFile path :=
    if String.eqb path "/music/a/cover.jpg" then front else NullImage;
  QFile_exists path := String.eqb path "/music/a/cover.jpg";
  QPixmapCache_accepts pixmap :=
    match pixmap with
    | Pixmap NullImage => true
    | Pixmap (Image w h _) => w * h * 4 <=? 20480 * 1024
    end
|}.

Definition coverArtDAO : CoverArtDAO := {|
  getCoverArtInfo trackId :=
    CoverArtInfo.mk trackId EmptyString EmptyString "Album" "song" "/music/a"
      "/music/a/song.mp3";
  saveCoverArt _ _ := 42;
  saveCoverArtBatch covers :=
    list_to_set ((fun kv => (fst kv, 42)) <$> map_to_list covers)
|}.

Definition trackDAO : TrackDAO := {|
  getTrackLocation _ := "/music/b/other.mp3"
|}.

(** Both collaborators set, nothing cached, nothing pending. *)
Definition ready : State :=
  mkState (Some coverArtDAO) (Some trackDAO) ∅ ∅ ∅ [].

(** Track 7 has a discovery waiting for the DB. *)
Definition pending7 : State :=
  mkState (Some coverArtDAO) (Some trackDAO)
    {[ 7 := ("/music/a/cover.jpg", "100105") ]} ∅ ∅ [].

(** Only the cover-art DAO is set. *)
Definition noTrackDAO : State :=
  mkState (Some coverArtDAO) None ∅ ∅ ∅ [].

Definition naturalSize : QSize.t := QSize.mk 0 0.
Definition thumbnail : QSize.t := QSize.mk 50 50.

(** A track with an embedded cover and a cover file in its directory. *)
Definition songTrack : CoverArtInfo.t := getCoverArtInfo coverArtDAO 1.

(** A track with neither. *)
Definition plainTrack : CoverArtInfo.t :=
  CoverArtInfo.mk 3 EmptyString EmptyString "Album" "plain" "/music/c"
    "/music/c/plain.mp3".

(** A first request for track 1: no hash known yet. *)
Definition request1 : CoverInfo.t :=
  CoverInfo.mk 1 EmptyString EmptyString "/music/a/song.mp3".

(** A request that is not valid. *)
Definition request0 : CoverInfo.t :=
  CoverInfo.mk 0 EmptyString EmptyString "/music/a/song.mp3".

(** A request for the cover changeCoverArt has just set for track 1. *)
Definition requestFront : CoverInfo.t :=
  CoverInfo.mk 1 "/music/a/cover.jpg" "100105" "/music/a/song.mp3".

(** The result of a later search for track 7. *)
Definition discovery7 : FutureResult.t :=
  FutureResult.mk 7 "/music/a/folder.jpg" "200206" naturalSize false
    (Image 200 200 "folder").

(** A queue of updates one entry short of the flush threshold: tracks
    1001 to 1499. *)
Definition nearlyFull : gmap Z (string * string) :=
  list_to_map ((fun i => (1000 + Z.of_nat i, ("/music/a/cover.jpg", "100105")))
                 <$> seq 1 499).

Definition nearlyFullState : State :=
  mkState (Some coverArtDAO) (Some trackDAO) nearlyFull ∅ ∅ [].

(** The front cover already cached for the natural size, track DAO set. *)
Definition cachedFront : State :=
  mkState (Some coverArtDAO) (Some trackDAO) ∅ ∅
    {[ cacheKey "100105" naturalSize := Pixmap front ]} [].

End Demo.

(** ** Vocabulary of the statements *)

Section Vocabulary.
Context {utils : CoverArtUtils} {qt : Platform}.

(** The choice of job as the specification words it: a search when the
    hash is empty, or when the location is not the embedded sentinel and
    no file exists there. *)
Definition wantsSearch (info : CoverInfo.t) : bool :=
  QString_isEmpty (CoverInfo.hash info)
  || (negb (String.eqb (CoverInfo.coverLocation info) ID3TAG)
      && negb (QFile_exists (CoverInfo.coverLocation info))).

(** The job requestPixmap hands to the worker pool for [info] (the request
    after the pending override). *)
Definition chosenJob (dao : CoverArtDAO) (info : CoverInfo.t)
    (croppedSize : QSize.t) (issueRepaint : bool) : Job :=
  if wantsSearch info
  then SearchJob (getCoverArtInfo dao (CoverInfo.trackId info)) croppedSize issueRepaint
  else LoadJob
         (CoverArtInfo.mk (CoverInfo.trackId info) (CoverInfo.coverLocation info)
            (CoverInfo.hash info) EmptyString EmptyString EmptyString
            (CoverInfo.trackLocation info))
         croppedSize issueRepaint.

(** The calls requestPixmap makes before it dispatches. *)
Definition dispatchPrelude (info : CoverInfo.t) : Trace :=
  if QString_isEmpty (CoverInfo.hash info)
  then [CoverArtDAO_getCoverArtInfo (CoverInfo.trackId info)]
  else if String.eqb (CoverInfo.coverLocation info) ID3TAG then []
  else if QFile_exists (CoverInfo.coverLocation info)
  then [Query_QFile_exists (CoverInfo.coverLocation info)]
  else [Query_QFile_exists (CoverInfo.coverLocation info);
        CoverArtDAO_getCoverArtInfo (CoverInfo.trackId info)].

(** The image changeCoverArt decodes for a non-empty location. *)
Definition decodedCover (trackDAO : TrackDAO) (trackId : Z) (location : string)
    : QImage :=
  if String.eqb location ID3TAG
  then extractEmbeddedCover (getTrackLocation trackDAO trackId)
  else QImage_fromFile location.

(** The calls of that decoding. *)
Definition decodeCalls (trackDAO : TrackDAO) (trackId : Z) (location : string)
    : Trace :=
  if String.eqb location ID3TAG
  then [TrackDAO_getTrackLocation trackId;
        Utils_extractEmbeddedCover (getTrackLocation trackDAO trackId)]
  else [Decode_QImage location].

(** The embedded cover of a search job's track, resized to the max bound. *)
Definition resizedEmbedded (coverInfo : CoverArtInfo.t) : QImage :=
  maybeResizeImage (extractEmbeddedCover (CoverArtInfo.trackLocation coverInfo))
    kMaxCoverSize.

End Vocabulary.

From Stdlib Require Import Ascii.


(** ** The object together with its running futures *)

(** The track a job reports back: the trackId of the CoverArtInfo it was
    given, which both workers copy into their result. *)
Definition jobTrackId (j : Job) : Z :=
  match j with
  | SearchJob coverInfo _ _ => CoverArtInfo.trackId coverInfo
  | LoadJob coverInfo _ _ => CoverArtInfo.trackId coverInfo
  end.

(** The jobs handed to QtConcurrent::run in a stretch of the trace. *)
Fixpoint dispatchedJobs (t : Trace) : list Job :=
  match t with
  | [] => []
  | QtConcurrent_run job :: t' => job :: dispatchedJobs t'
  | _ :: t' => dispatchedJobs t'
  end.

(** A cover-art DAO that answers getCoverArtInfo(trackId) with a record
    for that very track. *)
Definition answersForTrack (dao : option CoverArtDAO) : Prop :=
  forall d, dao = Some d ->
    forall trackId, CoverArtInfo.trackId (getCoverArtInfo d trackId) = trackId.

(** What can happen to the object: a call of one of its two public
    functions, or one of the running futures finishing (its watcher then
    calls the connected slot). *)
Inductive Call : Type :=
| Call_requestPixmap (info : CoverInfo.t) (croppedSize : QSize.t)
    (onlyCached issueRepaint : bool)
| Call_changeCoverArt (trackId : Z) (newCoverLocation : string)
| Future_finished (n : nat).

Section System.
Context {utils : CoverArtUtils} {qt : Platform}.

(** The object and the futures that have not finished yet. *)
Definition step (c : Call) (sys : State * list Job) : State * list Job :=
  let (s, futures) := sys in
  match c with
  | Call_requestPixmap info croppedSize onlyCached issueRepaint =>
      let s' := snd (requestPixmap info croppedSize onlyCached issueRepaint s) in
      (s', futures ++ dispatchedJobs (drop (length (trace s)) (trace s')))
  | Call_changeCoverArt trackId newCoverLocation =>
      (snd (changeCoverArt trackId newCoverLocation s), futures)
  | Future_finished n =>
      match futures !! n with
      | Some job => (snd (finished job s), delete n futures)
      | None => sys
      end
  end.

(** The state imageFound leaves before it looks at the queue of updates:
    lines 261-277. *)
Definition afterFoundSignal (res : FutureResult.t) (s : State) : State :=
  let key := resultKey res in
  let cached := default QPix.null (pixmapCache s !! key) in
  let pixmap := if QPix.isNull cached then Pixmap (FutureResult.img res) else cached in
  with_trace
    (fun t => t ++ [if FutureResult.issueRepaint res then Emit_requestRepaint
                    else Emit_pixmapFound (FutureResult.trackId res) pixmap])
    (with_pixmapCache
       (fun c => if QPix.isNull cached then
                   if QPixmapCache_accepts (Pixmap (FutureResult.img res))
                   then <[key := Pixmap (FutureResult.img res)]> c
                   else delete key c
                 else c)
       s).

Definition runCalls (calls : list Call) (sys : State * list Job)
    : State * list Job :=
  fold_left (fun sys c => step c sys) calls sys.

End System.

(** m_runningIds holds exactly the tracks of the unfinished futures, each
    once. *)
Definition inFlightConsistent (sys : State * list Job) : Prop :=
  NoDup (jobTrackId <$> snd sys)
  /\ m_runningIds (fst sys) = list_to_set (jobTrackId <$> snd sys).

(** ** Properties *)

Ltac run :=
  unfold bind, ret, get, modify, emit, lift, log,
    QPixmapCache_find, QPixmapCache_insert,
    call_extractEmbeddedCover, call_maybeResizeImage, call_cropImage,
    call_calculateHash, call_searchInTrackDirectory, new_QImage,
    call_QFile_exists, call_getTrackLocation, call_getCoverArtInfo,
    call_saveCoverArt, call_saveCoverArtBatch; simpl.

(** Projections of rebuilt states, without unfolding maps and sets. *)
Ltac fields :=
  cbn [fst snd trace m_pCoverArtDAO m_pTrackDAO m_queueOfUpdates m_runningIds
       pixmapCache with_trace with_queue with_runningIds with_pixmapCache
       QImg.isNull QPix.isNull QPix.null negb andb app].

(** The paths through searchImage: embedded cover or not, still there
    after the resize or not, target size null or not. *)
Ltac search_cases size :=
  unfold searchImage; run;
  destruct (QImg.isNull (extractEmbeddedCover _)) eqn:Hemb;
    simpl; rewrite ?Hemb; simpl;
    [|destruct (QImg.isNull (maybeResizeImage (extractEmbeddedCover _) _)) eqn:Hres;
      simpl; rewrite ?Hres; simpl];
    destruct (QSize.isNull size); simpl.

Lemma String_length_append (a b : string) :
  String.length (a +:+ b) = (String.length a + String.length b)%nat.
Proof. induction a as [|c a IH]; simpl; [reflexivity | now rewrite IH]. Qed.

(** The composite key is strictly longer than the hash it is built from:
    a pixmap stored under the bare hash is not under any composite key. *)
Lemma cacheKey_longer (hash : string) (size : QSize.t) :
  (String.length hash < String.length (cacheKey hash size))%nat.
Proof.
  unfold cacheKey. rewrite !String_length_append. simpl. lia.
Qed.

Lemma cacheKey_not_hash (hash : string) (size : QSize.t) :
  cacheKey hash size ≠ hash.
Proof.
  intros E. pose proof (cacheKey_longer hash size) as L.
  rewrite E in L. lia.
Qed.

Lemma countEvents_app (p : Event -> bool) (t u : Trace) :
  countEvents p (t ++ u) = (countEvents p t + countEvents p u)%nat.
Proof. unfold countEvents. now rewrite List.filter_app, length_app. Qed.

Lemma pendingInfo_trackId (q : gmap Z (string * string)) (info : CoverInfo.t) :
  CoverInfo.trackId (pendingInfo q info) = CoverInfo.trackId info.
Proof. unfold pendingInfo. now destruct (QHash_contains _ _). Qed.

Section Properties.
Context {utils : CoverArtUtils} {qt : Platform}.

Lemma dispatchPrelude_no_dispatch (info : CoverInfo.t) :
  countEvents isDispatch (dispatchPrelude info) = 0%nat.
Proof.
  unfold dispatchPrelude.
  destruct (QString_isEmpty _); [reflexivity|].
  destruct (String.eqb _ _); [reflexivity|].
  destruct (QFile_exists _); reflexivity.
Qed.

(** requestPixmap on a request that passes validation, is not in flight,
    misses the cache and may start a job: what it returns and the state it
    leaves. *)
Lemma requestPixmap_dispatch (s : State) (dao : CoverArtDAO) (info : CoverInfo.t)
    (size : QSize.t) (issueRepaint : bool) :
  1 <= CoverInfo.trackId info ->
  m_pCoverArtDAO s = Some dao ->
  CoverInfo.trackId info ∉ m_runningIds s ->
  pixmapCache s
    !! cacheKey (CoverInfo.hash (pendingInfo (m_queueOfUpdates s) info)) size = None ->
  requestPixmap info size false issueRepaint s =
    (QPix.null,
     with_runningIds (fun ids => {[CoverInfo.trackId info]} ∪ ids)
       (with_trace
          (fun t => t ++ dispatchPrelude (pendingInfo (m_queueOfUpdates s) info)
                      ++ [QtConcurrent_run
                            (chosenJob dao (pendingInfo (m_queueOfUpdates s) info)
                               size issueRepaint)])
          s)).
Proof.
  intros Hid Hdao Hrun Hmiss.
  unfold requestPixmap, chosenJob, dispatchPrelude, wantsSearch.
  rewrite pendingInfo_trackId.
  run. rewrite Hdao.
  destruct (Z.ltb_spec (CoverInfo.trackId info) 1) as [?|_]; [lia|].
  rewrite bool_decide_eq_false_2 by assumption.
  rewrite Hmiss.
  set (info' := pendingInfo _ _) in *.
  destruct (QString_isEmpty (CoverInfo.hash info')); simpl.
  { unfold with_runningIds, with_trace; simpl. now rewrite <- app_assoc. }
  destruct (String.eqb (CoverInfo.coverLocation info') ID3TAG); simpl.
  { reflexivity. }
  destruct (QFile_exists (CoverInfo.coverLocation info')); simpl.
  - unfold with_runningIds, with_trace; simpl. now rewrite <- app_assoc.
  - unfold with_runningIds, with_trace; simpl. now rewrite <- !app_assoc.
Qed.

(** A request for a track whose future is running is answered with the
    null pixmap and leaves the state, trace included, as it was. *)
Lemma requestPixmap_running (s : State) (info : CoverInfo.t) (size : QSize.t)
    (onlyCached issueRepaint : bool) :
  CoverInfo.trackId info ∈ m_runningIds s ->
  requestPixmap info size onlyCached issueRepaint s = (QPix.null, s).
Proof.
  intros Hrun. unfold requestPixmap. run.
  destruct (CoverInfo.trackId info <? 1); [reflexivity|].
  destruct (m_pCoverArtDAO s); [|reflexivity].
  now rewrite bool_decide_eq_true_2.
Qed.

End Properties.

Section EntryPoints.
Context {utils : CoverArtUtils} {qt : Platform}.

(** C9.  For every trackId < 1 both public entry points give up at once:
    requestPixmap returns the null pixmap and changeCoverArt returns false,
    and each leaves the whole state as it was.  The state carries the
    trace of outgoing calls, so no DAO, no image utility and no signal was
    reached. *)
Theorem invalid_trackId_rejected (trackId : Z) :
  trackId < 1 ->
  (forall (info : CoverInfo.t) (size : QSize.t) (onlyCached issueRepaint : bool)
          (s : State),
      CoverInfo.trackId info = trackId ->
      requestPixmap info size onlyCached issueRepaint s = (QPix.null, s))
  /\ (forall (location : string) (s : State),
         changeCoverArt trackId location s = (false, s)).
Proof.
  intros Hlt. split.
  - intros info size oc ir s E. unfold requestPixmap. run.
    rewrite E. destruct (Z.ltb_spec trackId 1) as [_|?]; [reflexivity | lia].
  - intros location s. unfold changeCoverArt. run.
    destruct (Z.ltb_spec trackId 1) as [_|?]; [reflexivity | lia].
Qed.

(** C6.  A request for a track in the in-flight set returns the null
    pixmap and changes nothing (nothing is dispatched, nothing is noted
    for later).  Hence, of two back-to-back requests for one valid track
    that is neither cached nor in flight, the first starts exactly one job
    and the second is dropped: it returns the null pixmap and leaves the
    state of the first untouched. *)
Theorem duplicate_request_dropped :
  (forall (s : State) (info : CoverInfo.t) (size : QSize.t)
          (onlyCached issueRepaint : bool),
      CoverInfo.trackId info ∈ m_runningIds s ->
      requestPixmap info size onlyCached issueRepaint s = (QPix.null, s))
  /\ (forall (s : State) (dao : CoverArtDAO) (first second : CoverInfo.t)
             (size1 size2 : QSize.t) (issueRepaint1 onlyCached2 issueRepaint2 : bool),
         1 <= CoverInfo.trackId first ->
         m_pCoverArtDAO s = Some dao ->
         CoverInfo.trackId first ∉ m_runningIds s ->
         pixmapCache s
           !! cacheKey (CoverInfo.hash (pendingInfo (m_queueOfUpdates s) first)) size1
           = None ->
         CoverInfo.trackId second = CoverInfo.trackId first ->
         let r1 := requestPixmap first size1 false issueRepaint1 s in
         let r2 := requestPixmap second size2 onlyCached2 issueRepaint2 (snd r1) in
         fst r1 = QPix.null
         /\ countEvents isDispatch (trace (snd r1))
            = S (countEvents isDispatch (trace s))
         /\ CoverInfo.trackId first ∈ m_runningIds (snd r1)
         /\ r2 = (QPix.null, snd r1)
         /\ countEvents isDispatch (trace (snd r2))
            = S (countEvents isDispatch (trace s))).
Proof.
  split; [apply requestPixmap_running|].
  intros s dao first second size1 size2 ir1 oc2 ir2 Hid Hdao Hrun Hmiss Hsame r1 r2.
  subst r2 r1.
  rewrite (requestPixmap_dispatch s dao first size1 ir1 Hid Hdao Hrun Hmiss).
  cbn [fst snd].
  set (s1 := with_runningIds _ _).
  assert (Hin : CoverInfo.trackId first ∈ m_runningIds s1)
    by (subst s1; simpl; set_solver).
  assert (Hcount : countEvents isDispatch (trace s1)
                   = S (countEvents isDispatch (trace s))).
  { subst s1; simpl. rewrite !countEvents_app, dispatchPrelude_no_dispatch.
    unfold countEvents at 2; simpl. lia. }
  rewrite requestPixmap_running by (rewrite Hsame; exact Hin).
  repeat split; assumption.
Qed.

(** C7.  A request that passes validation, is not in flight, misses the
    cache and is not restricted to the cache starts exactly one job; with
    hash and location taken after the pending override, that job is a
    search job if and only if the hash is empty, or the location is not
    the embedded sentinel and no file exists there; in every other case
    it is a load job. *)
Theorem dispatched_job_kind (s : State) (dao : CoverArtDAO) (info : CoverInfo.t)
    (size : QSize.t) (issueRepaint : bool) :
  1 <= CoverInfo.trackId info ->
  m_pCoverArtDAO s = Some dao ->
  CoverInfo.trackId info ∉ m_runningIds s ->
  pixmapCache s
    !! cacheKey (CoverInfo.hash (pendingInfo (m_queueOfUpdates s) info)) size = None ->
  let info' := pendingInfo (m_queueOfUpdates s) info in
  let r := requestPixmap info size false issueRepaint s in
  exists (job : Job) (calls : Trace),
    trace (snd r) = trace s ++ calls ++ [QtConcurrent_run job]
    /\ countEvents isDispatch calls = 0%nat
    /\ (isSearchJob job = true <->
          CoverInfo.hash info' = EmptyString
          \/ (CoverInfo.coverLocation info' <> ID3TAG
              /\ QFile_exists (CoverInfo.coverLocation info') = false))
    /\ (isSearchJob job = true ->
          job = SearchJob (getCoverArtInfo dao (CoverInfo.trackId info))
                  size issueRepaint)
    /\ (isSearchJob job = false ->
          job = LoadJob
                  (CoverArtInfo.mk (CoverInfo.trackId info)
                     (CoverInfo.coverLocation info') (CoverInfo.hash info')
                     EmptyString EmptyString EmptyString
                     (CoverInfo.trackLocation info'))
                  size issueRepaint).
Proof.
  intros Hid Hdao Hrun Hmiss info' r. subst r.
  rewrite (requestPixmap_dispatch s dao info size issueRepaint Hid Hdao Hrun Hmiss).
  fold info'. cbn [snd].
  exists (chosenJob dao info' size issueRepaint), (dispatchPrelude info').
  split; [reflexivity|]. split; [apply dispatchPrelude_no_dispatch|].
  unfold chosenJob, wantsSearch.
  assert (Htid : CoverInfo.trackId info' = CoverInfo.trackId info)
    by apply pendingInfo_trackId.
  rewrite Htid.
  destruct (CoverInfo.hash info') as [|c h] eqn:Hh; simpl.
  { repeat split; auto; discriminate. }
  destruct (String.eqb_spec (CoverInfo.coverLocation info') ID3TAG) as [Heq|Hne]; simpl.
  { repeat split; try discriminate; auto.
    intros [?|[? _]]; [discriminate | contradiction]. }
  destruct (QFile_exists (CoverInfo.coverLocation info')) eqn:Hex; simpl.
  - repeat split; try discriminate; auto.
    intros [?|[_ ?]]; discriminate.
  - repeat split; try discriminate; auto.
Qed.

(** C10.  requestPixmap looks at the cover-art DAO only.  With the
    cover-art DAO set and the track DAO unset, a request for a valid track
    that is neither cached nor in flight starts one job and marks the
    track as running, and in general the track DAO pointer has no
    influence on any request; changeCoverArt in the same state refuses. *)
Theorem request_needs_only_coverArtDAO (s : State) (dao : CoverArtDAO)
    (info : CoverInfo.t) (size : QSize.t) (issueRepaint : bool) :
  1 <= CoverInfo.trackId info ->
  m_pCoverArtDAO s = Some dao ->
  m_pTrackDAO s = None ->
  CoverInfo.trackId info ∉ m_runningIds s ->
  pixmapCache s
    !! cacheKey (CoverInfo.hash (pendingInfo (m_queueOfUpdates s) info)) size = None ->
  let r := requestPixmap info size false issueRepaint s in
  fst r = QPix.null
  /\ CoverInfo.trackId info ∈ m_runningIds (snd r)
  /\ trace (snd r)
     = trace s ++ dispatchPrelude (pendingInfo (m_queueOfUpdates s) info)
         ++ [QtConcurrent_run
               (chosenJob dao (pendingInfo (m_queueOfUpdates s) info)
                  size issueRepaint)]
  /\ countEvents isDispatch (trace (snd r)) = S (countEvents isDispatch (trace s))
  /\ (forall (trackDAO : TrackDAO),
         requestPixmap info size false issueRepaint (snd (setTrackDAO (Some trackDAO) s))
         = (fst r, snd (setTrackDAO (Some trackDAO) (snd r))))
  /\ (forall (location : string),
         changeCoverArt (CoverInfo.trackId info) location s = (false, s)).
Proof.
  intros Hid Hdao Htrack Hrun Hmiss r. subst r.
  rewrite (requestPixmap_dispatch s dao info size issueRepaint Hid Hdao Hrun Hmiss).
  cbn [fst snd].
  split; [reflexivity|].
  split; [simpl; set_solver|].
  split; [reflexivity|].
  split.
  { simpl. rewrite !countEvents_app, dispatchPrelude_no_dispatch.
    unfold countEvents at 2; simpl. lia. }
  split.
  - intros trackDAO.
    rewrite (requestPixmap_dispatch _ dao info size issueRepaint Hid)
      by (simpl; assumption).
    reflexivity.
  - intros location. unfold changeCoverArt. run. rewrite Htrack.
    destruct (CoverInfo.trackId info <? 1); [reflexivity|].
    destruct (m_pCoverArtDAO s); reflexivity.
Qed.

End EntryPoints.

Section Completion.
Context {utils : CoverArtUtils} {qt : Platform}.

(** C8.  A search job for a track with a non-null embedded cover (which
    the resize keeps non-null) reports the embedded sentinel as location,
    the hash of the embedded image resized to the max bound, and that
    resized image (cropped when a target size is given).  Its calls are
    the extraction, the resize, the hash and the crop: the directory
    search is not called and no file is decoded. *)
Theorem embedded_cover_wins (coverInfo : CoverArtInfo.t) (size : QSize.t)
    (issueRepaint : bool) (t : Trace) :
  QImg.isNull (extractEmbeddedCover (CoverArtInfo.trackLocation coverInfo)) = false ->
  QImg.isNull (resizedEmbedded coverInfo) = false ->
  let r := searchImage coverInfo size issueRepaint t in
  FutureResult.coverLocation (fst r) = ID3TAG
  /\ FutureResult.hash (fst r) = calculateHash (resizedEmbedded coverInfo)
  /\ FutureResult.img (fst r)
     = (if QSize.isNull size then resizedEmbedded coverInfo
        else cropImage (resizedEmbedded coverInfo) size)
  /\ snd r
     = t ++ [Utils_extractEmbeddedCover (CoverArtInfo.trackLocation coverInfo);
             Utils_maybeResizeImage
               (extractEmbeddedCover (CoverArtInfo.trackLocation coverInfo))
               kMaxCoverSize;
             Utils_calculateHash (resizedEmbedded coverInfo)]
         ++ (if QSize.isNull size then []
             else [Utils_cropImage (resizedEmbedded coverInfo) size])
  /\ countEvents isDirectorySearch (snd r) = countEvents isDirectorySearch t.
Proof.
  intros Hemb Hres r. subst r. unfold resizedEmbedded in *.
  unfold searchImage. run. rewrite Hemb. simpl. rewrite Hres. simpl.
  destruct (QSize.isNull size); simpl.
  - repeat split; try reflexivity.
    + now rewrite <- !app_assoc.
    + rewrite !countEvents_app. unfold countEvents; simpl. lia.
  - repeat split; try reflexivity.
    + now rewrite <- !app_assoc.
    + rewrite !countEvents_app. unfold countEvents; simpl. lia.
Qed.

(** C2 (amended).  When the track of a finished search job already has a
    pending update, imageFound leaves the queue of updates as it is: the
    earlier discovery stays, the later one is not written. *)
Theorem imageFound_keeps_pending (s : State) (res : FutureResult.t) :
  is_Some (m_queueOfUpdates s !! FutureResult.trackId res) ->
  m_queueOfUpdates (snd (imageFound res s)) = m_queueOfUpdates s.
Proof.
  intros [entry Hentry]. unfold imageFound. run.
  destruct (QPix.isNull (default QPix.null (pixmapCache s !! resultKey res)));
    [destruct (QPixmapCache_accepts _)|];
    destruct (FutureResult.issueRepaint res); simpl;
    unfold QHash_contains; simpl; rewrite Hentry; reflexivity.
Qed.

(** A load job with a null image leaves the pixmap cache as it is: the
    guard of imageLoaded. *)
Lemma imageLoaded_null_keeps_cache (s : State) (res : FutureResult.t) :
  QImg.isNull (FutureResult.img res) = true ->
  pixmapCache (snd (imageLoaded res s)) = pixmapCache s.
Proof.
  intros Hnull. unfold imageLoaded. run. rewrite Hnull, andb_false_r.
  destruct (FutureResult.issueRepaint res); reflexivity.
Qed.

(** imageFound has no such guard: on a miss it inserts whatever the job
    brought, null image included (a null pixmap costs nothing and is
    accepted). *)
Lemma imageFound_miss_inserts (s : State) (res : FutureResult.t) :
  pixmapCache s !! resultKey res = None ->
  QPixmapCache_accepts (Pixmap (FutureResult.img res)) = true ->
  pixmapCache (snd (imageFound res s)) !! resultKey res
  = Some (Pixmap (FutureResult.img res)).
Proof.
  intros Hmiss Hacc. unfold imageFound, updateDB. run.
  rewrite Hmiss. unfold QPix.convertFromImage. simpl. rewrite Hacc.
  destruct (FutureResult.issueRepaint res); simpl;
    destruct (QHash_contains _ _); simpl;
    try (destruct (m_pCoverArtDAO s); simpl);
    try (destruct (m_pTrackDAO s); simpl);
    try (destruct (Z.of_nat _ <? 500); simpl);
    apply lookup_insert_eq.
Qed.

(** C4 (amended).  A forced update on an empty queue is silent only when a
    DAO is unset.  With both DAOs set it calls the batched saveCoverArt
    with the empty queue and then the batched updateCoverArt with what
    that returned; the queue is empty afterwards as before. *)
Theorem forced_update_empty_queue (s : State) :
  m_queueOfUpdates s = ∅ ->
  (forall (coverArtDAO : CoverArtDAO) (trackDAO : TrackDAO),
      m_pCoverArtDAO s = Some coverArtDAO ->
      m_pTrackDAO s = Some trackDAO ->
      updateDB true s
      = (tt, with_trace
               (fun t => t ++ [CoverArtDAO_saveCoverArtBatch ∅;
                               TrackDAO_updateCoverArtBatch
                                 (saveCoverArtBatch coverArtDAO ∅)])
               s))
  /\ (m_pCoverArtDAO s = None \/ m_pTrackDAO s = None ->
      updateDB true s = (tt, s)).
Proof.
  intros Hempty. split.
  - intros coverArtDAO trackDAO Hc Ht. unfold updateDB. run.
    rewrite Hc, Ht. destruct s; simpl in *; subst.
    unfold with_queue, with_trace; simpl. now rewrite <- app_assoc.
  - intros [Hc|Ht]; unfold updateDB; run.
    + now rewrite Hc.
    + rewrite Ht. now destruct (m_pCoverArtDAO s).
Qed.

(** C3 (amended).  changeCoverArt for a valid track, with both DAOs set,
    on a non-empty location that decodes to a null image returns false.
    It has by then removed the track's pending update; the pixmap cache,
    the running ids and the DAO pointers are as before, and the only
    calls made are those of the decoding: nothing was written to the
    DAOs. *)
Theorem changeCoverArt_decode_failure (s : State) (coverArtDAO : CoverArtDAO)
    (trackDAO : TrackDAO) (trackId : Z) (location : string) :
  1 <= trackId ->
  m_pCoverArtDAO s = Some coverArtDAO ->
  m_pTrackDAO s = Some trackDAO ->
  QString_isEmpty location = false ->
  QImg.isNull (decodedCover trackDAO trackId location) = true ->
  let r := changeCoverArt trackId location s in
  fst r = false
  /\ m_queueOfUpdates (snd r) = delete trackId (m_queueOfUpdates s)
  /\ pixmapCache (snd r) = pixmapCache s
  /\ m_runningIds (snd r) = m_runningIds s
  /\ m_pCoverArtDAO (snd r) = m_pCoverArtDAO s
  /\ m_pTrackDAO (snd r) = m_pTrackDAO s
  /\ trace (snd r) = trace s ++ decodeCalls trackDAO trackId location
  /\ countEvents isDAOWrite (trace (snd r)) = countEvents isDAOWrite (trace s).
Proof.
  intros Hid Hc Ht Hloc Hnull r. subst r.
  unfold decodedCover in Hnull. unfold decodeCalls.
  unfold changeCoverArt. run. rewrite Hc, Ht, Hloc.
  destruct (Z.ltb_spec trackId 1) as [?|_]; [lia|].
  destruct (String.eqb location ID3TAG); simpl; rewrite Hnull; simpl.
  - repeat split; try reflexivity; try assumption.
    + now rewrite <- app_assoc.
    + rewrite !countEvents_app. unfold countEvents; simpl. lia.
  - repeat split; try reflexivity; try assumption.
    rewrite !countEvents_app. unfold countEvents; simpl. lia.
Qed.

(** changeCoverArt never touches the composite key of the hash it
    computed: it reads and writes the cache under the bare hash. *)
Lemma changeCoverArt_composite_key_untouched (s : State) (coverArtDAO : CoverArtDAO)
    (trackDAO : TrackDAO) (trackId : Z) (location : string) (size : QSize.t) :
  m_pTrackDAO s = Some trackDAO ->
  let hash := calculateHash
                (maybeResizeImage (decodedCover trackDAO trackId location)
                   kMaxCoverSize) in
  pixmapCache (snd (changeCoverArt trackId location s)) !! cacheKey hash size
  = pixmapCache s !! cacheKey hash size.
Proof.
  intros Ht hash. subst hash. unfold decodedCover.
  unfold changeCoverArt. run. rewrite Ht.
  destruct (trackId <? 1); [reflexivity|].
  destruct (m_pCoverArtDAO s); [|reflexivity].
  destruct (QString_isEmpty location); [reflexivity|].
  destruct (String.eqb location ID3TAG); simpl.
  - destruct (QImg.isNull (extractEmbeddedCover _)); simpl; [reflexivity|].
    destruct (pixmapCache s !! calculateHash _); simpl; [reflexivity|].
    destruct (QPixmapCache_accepts _); simpl.
    + apply lookup_insert_ne. intros E. symmetry in E.
      exact (cacheKey_not_hash _ _ E).
    + apply lookup_delete_ne. intros E. symmetry in E.
      exact (cacheKey_not_hash _ _ E).
  - destruct (QImg.isNull (QImage_fromFile _)); simpl; [reflexivity|].
    destruct (pixmapCache s !! calculateHash _); simpl; [reflexivity|].
    destruct (QPixmapCache_accepts _); simpl.
    + apply lookup_insert_ne. intros E. symmetry in E.
      exact (cacheKey_not_hash _ _ E).
    + apply lookup_delete_ne. intros E. symmetry in E.
      exact (cacheKey_not_hash _ _ E).
Qed.

End Completion.

(** ** The code run on concrete inputs *)

(** Track id 0 at both entry points. *)
Lemma invalid_trackId_rejected_witness :
  0 < 1
  /\ requestPixmap (qt := Demo.platform) Demo.request0 Demo.thumbnail false false
       Demo.ready = (QPix.null, Demo.ready)
  /\ changeCoverArt (utils := Demo.utils) (qt := Demo.platform) 0
       "/music/a/cover.jpg" Demo.ready = (false, Demo.ready).
Proof.
  assert (H : 0 < 1) by lia.
  destruct (invalid_trackId_rejected (utils := Demo.utils) (qt := Demo.platform) 0 H)
    as [Hrequest Hchange].
  split; [exact H|]. split.
  - apply Hrequest. reflexivity.
  - apply Hchange.
Defined.

(** Track 1 requested twice in a row. *)
Lemma duplicate_request_dropped_witness :
  let r1 := requestPixmap (qt := Demo.platform) Demo.request1 Demo.naturalSize
              false false Demo.ready in
  let r2 := requestPixmap (qt := Demo.platform) Demo.request1 Demo.thumbnail
              false true (snd r1) in
  (1 ∈ m_runningIds (snd r1) /\ r2 = (QPix.null, snd r1))
  /\ (fst r1 = QPix.null
      /\ countEvents isDispatch (trace (snd r1))
         = S (countEvents isDispatch (trace Demo.ready))
      /\ 1 ∈ m_runningIds (snd r1)
      /\ r2 = (QPix.null, snd r1)
      /\ countEvents isDispatch (trace (snd r2))
         = S (countEvents isDispatch (trace Demo.ready))).
Proof.
  destruct (duplicate_request_dropped (qt := Demo.platform)) as [Hdrop Htwice].
  assert (Hpair := Htwice Demo.ready Demo.coverArtDAO Demo.request1 Demo.request1
                     Demo.naturalSize Demo.thumbnail false false true).
  cbv zeta in Hpair.
  assert (Hconcl := Hpair ltac:(simpl; lia) eq_refl
                      ltac:(simpl; apply not_elem_of_empty) eq_refl eq_refl).
  intros r1 r2. split; [|exact Hconcl].
  destruct Hconcl as (_ & _ & Hin & _). split; [exact Hin|].
  apply Hdrop. exact Hin.
Defined.

(** A request without a hash starts a search job. *)
Lemma dispatched_job_kind_witness :
  1 <= 1 /\
  exists (job : Job) (calls : Trace),
    trace (snd (requestPixmap (qt := Demo.platform) Demo.request1 Demo.naturalSize
                  false false Demo.ready))
    = trace Demo.ready ++ calls ++ [QtConcurrent_run job]
    /\ isSearchJob job = true.
Proof.
  split; [lia|].
  destruct (dispatched_job_kind (qt := Demo.platform) Demo.ready Demo.coverArtDAO
              Demo.request1 Demo.naturalSize false
              ltac:(simpl; lia) eq_refl ltac:(simpl; apply not_elem_of_empty) eq_refl)
    as (job & calls & Htrace & _ & Hkind & _).
  exists job, calls. split; [exact Htrace|].
  apply Hkind. left. reflexivity.
Defined.

(** A request and a change while only the cover-art DAO is set. *)
Lemma request_needs_only_coverArtDAO_witness :
  m_pTrackDAO Demo.noTrackDAO = None
  /\ fst (requestPixmap (qt := Demo.platform) Demo.request1 Demo.naturalSize
            false false Demo.noTrackDAO) = QPix.null
  /\ 1 ∈ m_runningIds
           (snd (requestPixmap (qt := Demo.platform) Demo.request1 Demo.naturalSize
                   false false Demo.noTrackDAO))
  /\ changeCoverArt (utils := Demo.utils) (qt := Demo.platform) 1
       "/music/a/cover.jpg" Demo.noTrackDAO = (false, Demo.noTrackDAO).
Proof.
  destruct (request_needs_only_coverArtDAO (utils := Demo.utils) (qt := Demo.platform)
              Demo.noTrackDAO Demo.coverArtDAO Demo.request1 Demo.naturalSize false
              ltac:(simpl; lia) eq_refl eq_refl
              ltac:(simpl; apply not_elem_of_empty) eq_refl)
    as (Hnull & Hin & _ & _ & _ & Hchange).
  split; [reflexivity|]. split; [exact Hnull|]. split; [exact Hin|].
  apply Hchange.
Defined.

(** A track with an embedded cover and a cover file in its directory. *)
Lemma embedded_cover_wins_witness :
  QImg.isNull (extractEmbeddedCover (CoverArtUtils := Demo.utils)
                 (CoverArtInfo.trackLocation Demo.songTrack)) = false
  /\ FutureResult.coverLocation
       (fst (searchImage (utils := Demo.utils) (qt := Demo.platform)
               Demo.songTrack Demo.thumbnail false [])) = ID3TAG
  /\ FutureResult.img
       (fst (searchImage (utils := Demo.utils) (qt := Demo.platform)
               Demo.songTrack Demo.thumbnail false [])) = Image 50 50 "embedded".
Proof.
  destruct (embedded_cover_wins (utils := Demo.utils) (qt := Demo.platform)
              Demo.songTrack Demo.thumbnail false [] eq_refl eq_refl)
    as (Hloc & _ & Himg & _).
  split; [reflexivity|]. split; [exact Hloc|]. exact Himg.
Defined.

(** A second discovery for track 7. *)
Lemma imageFound_keeps_pending_witness :
  is_Some (m_queueOfUpdates Demo.pending7 !! 7)
  /\ m_queueOfUpdates (snd (imageFound (qt := Demo.platform) Demo.discovery7
                              Demo.pending7))
     = m_queueOfUpdates Demo.pending7.
Proof.
  assert (H : is_Some (m_queueOfUpdates Demo.pending7
                         !! FutureResult.trackId Demo.discovery7))
    by (eexists; reflexivity).
  split; [exact H|].
  exact (imageFound_keeps_pending (qt := Demo.platform) Demo.pending7
           Demo.discovery7 H).
Defined.

(** The forced update with both DAOs set, and with the track DAO unset. *)
Lemma forced_update_empty_queue_witness :
  m_queueOfUpdates Demo.ready = ∅
  /\ updateDB true Demo.ready
     = (tt, with_trace
              (fun t => t ++ [CoverArtDAO_saveCoverArtBatch ∅;
                              TrackDAO_updateCoverArtBatch
                                (saveCoverArtBatch Demo.coverArtDAO ∅)])
              Demo.ready)
  /\ updateDB true Demo.noTrackDAO = (tt, Demo.noTrackDAO).
Proof.
  split; [reflexivity|]. split.
  - destruct (forced_update_empty_queue Demo.ready eq_refl) as [Hboth _].
    exact (Hboth Demo.coverArtDAO Demo.trackDAO eq_refl eq_refl).
  - destruct (forced_update_empty_queue Demo.noTrackDAO eq_refl) as [_ Hunset].
    apply Hunset. right. reflexivity.
Defined.

(** A broken cover file chosen for track 7. *)
Lemma changeCoverArt_decode_failure_witness :
  QImg.isNull (decodedCover (utils := Demo.utils) (qt := Demo.platform)
                 Demo.trackDAO 7 "/music/a/broken.jpg") = true
  /\ fst (changeCoverArt (utils := Demo.utils) (qt := Demo.platform) 7
            "/music/a/broken.jpg" Demo.pending7) = false
  /\ m_queueOfUpdates
       (snd (changeCoverArt (utils := Demo.utils) (qt := Demo.platform) 7
               "/music/a/broken.jpg" Demo.pending7))
     = delete 7 (m_queueOfUpdates Demo.pending7).
Proof.
  destruct (changeCoverArt_decode_failure (utils := Demo.utils) (qt := Demo.platform)
              Demo.pending7 Demo.coverArtDAO Demo.trackDAO 7 "/music/a/broken.jpg"
              ltac:(lia) eq_refl eq_refl eq_refl eq_refl)
    as (Hret & Hqueue & _).
  split; [reflexivity|]. split; [exact Hret | exact Hqueue].
Defined.

(** C2, as stated, fails.  Track 7 has a pending update; a later search
    for track 7 finishes with another location and hash.  After
    imageFound the pending update is still the earlier one. *)
Lemma later_discovery_not_written :
  let s' := snd (imageFound (qt := Demo.platform) Demo.discovery7 Demo.pending7) in
  is_Some (m_queueOfUpdates Demo.pending7 !! FutureResult.trackId Demo.discovery7)
  /\ m_queueOfUpdates s' !! 7 = Some ("/music/a/cover.jpg", "100105")
  /\ m_queueOfUpdates s' !! FutureResult.trackId Demo.discovery7
     <> Some (FutureResult.coverLocation Demo.discovery7,
              FutureResult.hash Demo.discovery7).
Proof.
  cbv zeta. split; [eexists; reflexivity|].
  split; [reflexivity|]. vm_compute. discriminate.
Qed.

(** C3, as stated, fails.  Track 7 is valid and has a pending update, both
    DAOs are set, and the non-empty location decodes to a null image.
    changeCoverArt returns false, yet the pending update of track 7 is
    gone. *)
Lemma failed_change_drops_pending :
  let r := changeCoverArt (utils := Demo.utils) (qt := Demo.platform) 7
             "/music/a/broken.jpg" Demo.pending7 in
  QImg.isNull (decodedCover (utils := Demo.utils) (qt := Demo.platform)
                 Demo.trackDAO 7 "/music/a/broken.jpg") = true
  /\ fst r = false
  /\ m_queueOfUpdates Demo.pending7 !! 7 = Some ("/music/a/cover.jpg", "100105")
  /\ m_queueOfUpdates (snd r) !! 7 = None
  /\ m_queueOfUpdates (snd r) <> m_queueOfUpdates Demo.pending7.
Proof.
  cbv zeta. repeat split; try reflexivity.
  intros E. apply (f_equal (fun q => q !! 7)) in E. vm_compute in E. discriminate.
Qed.

(** C4, as stated, fails.  Both DAOs are set and the queue is empty; the
    forced update makes two DAO calls, the batched saveCoverArt and the
    batched updateCoverArt. *)
Lemma forced_update_calls_DAOs :
  let s' := snd (updateDB true Demo.ready) in
  m_queueOfUpdates Demo.ready = ∅
  /\ trace Demo.ready = []
  /\ trace s' = [CoverArtDAO_saveCoverArtBatch ∅; TrackDAO_updateCoverArtBatch ∅]
  /\ countEvents isDAOCall (trace s') = 2%nat
  /\ countEvents isDAOCall (trace s') <> 0%nat.
Proof.
  cbv zeta. repeat split; try reflexivity. vm_compute. discriminate.
Qed.

(** C1.  changeCoverArt for track 1 decodes a 100x100 cover with hash
    "100105" and returns true.  The pixmap is in the cache under the bare
    hash and not under the natural-size key "CoverArtCache_100105_0x0":
    a request for that hash with a null target size misses the cache
    (with onlyCached it returns the null pixmap, without it a job is
    started). *)
Theorem changeCoverArt_stores_under_bare_hash :
  let r := changeCoverArt (utils := Demo.utils) (qt := Demo.platform) 1
             "/music/a/cover.jpg" Demo.ready in
  let s' := snd r in
  fst r = true
  /\ cacheKey "100105" Demo.naturalSize = "CoverArtCache_100105_0x0"
  /\ pixmapCache s' !! "100105" = Some (Pixmap Demo.front)
  /\ pixmapCache s' !! cacheKey "100105" Demo.naturalSize = None
  /\ requestPixmap (qt := Demo.platform) Demo.requestFront Demo.naturalSize
       true false s' = (QPix.null, s')
  /\ countEvents isDispatch
       (trace (snd (requestPixmap (qt := Demo.platform) Demo.requestFront
                      Demo.naturalSize false false s')))
     = S (countEvents isDispatch (trace s')).
Proof.
  cbv zeta. repeat split; reflexivity.
Qed.

(** C5.  A search job for a track with no cover at all finishes with a
    null image and the empty hash.  imageFound, which lacks the guard of
    imageLoaded, inserts the null pixmap into the cache under
    "CoverArtCache__0x0"; imageLoaded on the same result inserts nothing. *)
Theorem imageFound_caches_null_pixmap :
  let res := fst (searchImage (utils := Demo.utils) (qt := Demo.platform)
                    Demo.plainTrack Demo.naturalSize false []) in
  FutureResult.img res = NullImage
  /\ resultKey res = "CoverArtCache__0x0"
  /\ pixmapCache Demo.ready !! resultKey res = None
  /\ pixmapCache (snd (imageFound (qt := Demo.platform) res Demo.ready))
       !! resultKey res = Some QPix.null
  /\ pixmapCache (snd (imageLoaded (qt := Demo.platform) res Demo.ready))
       !! resultKey res = None.
Proof.
  cbv zeta. repeat split; reflexivity.
Qed.


(** ** Further properties of requestPixmap *)

Lemma dispatchedJobs_app (t u : Trace) :
  dispatchedJobs (t ++ u) = dispatchedJobs t ++ dispatchedJobs u.
Proof.
  induction t as [|e t IH]; [reflexivity|].
  destruct e; simpl; now rewrite ?IH.
Qed.

Section RequestPixmap.
Context {utils : CoverArtUtils} {qt : Platform}.

Lemma dispatchPrelude_no_job (info : CoverInfo.t) :
  dispatchedJobs (dispatchPrelude info) = [].
Proof.
  unfold dispatchPrelude.
  destruct (QString_isEmpty _); [reflexivity|].
  destruct (String.eqb _ _); [reflexivity|].
  destruct (QFile_exists _); reflexivity.
Qed.

Lemma dispatchPrelude_no_write (info : CoverInfo.t) :
  countEvents isDAOWrite (dispatchPrelude info) = 0%nat.
Proof.
  unfold dispatchPrelude.
  destruct (QString_isEmpty _); [reflexivity|].
  destruct (String.eqb _ _); [reflexivity|].
  destruct (QFile_exists _); reflexivity.
Qed.

Lemma requestPixmap_invalid (s : State) (info : CoverInfo.t) (size : QSize.t)
    (onlyCached issueRepaint : bool) :
  CoverInfo.trackId info < 1 ->
  requestPixmap info size onlyCached issueRepaint s = (QPix.null, s).
Proof.
  intros Hlt. unfold requestPixmap. run.
  destruct (Z.ltb_spec (CoverInfo.trackId info) 1) as [_|?]; [reflexivity | lia].
Qed.

Lemma requestPixmap_no_dao (s : State) (info : CoverInfo.t) (size : QSize.t)
    (onlyCached issueRepaint : bool) :
  m_pCoverArtDAO s = None ->
  requestPixmap info size onlyCached issueRepaint s = (QPix.null, s).
Proof.
  intros Hdao. unfold requestPixmap. run. rewrite Hdao.
  now destruct (CoverInfo.trackId info <? 1).
Qed.

Lemma requestPixmap_hit (s : State) (dao : CoverArtDAO) (info : CoverInfo.t)
    (size : QSize.t) (onlyCached issueRepaint : bool) (pixmap : QPixmap) :
  1 <= CoverInfo.trackId info ->
  m_pCoverArtDAO s = Some dao ->
  CoverInfo.trackId info ∉ m_runningIds s ->
  pixmapCache s
    !! cacheKey (CoverInfo.hash (pendingInfo (m_queueOfUpdates s) info)) size
    = Some pixmap ->
  requestPixmap info size onlyCached issueRepaint s
  = (pixmap,
     if issueRepaint then s
     else with_trace
            (fun t => t ++ [Emit_pixmapFound (CoverInfo.trackId info) pixmap]) s).
Proof.
  intros Hid Hdao Hrun Hhit. unfold requestPixmap. run. rewrite Hdao.
  destruct (Z.ltb_spec (CoverInfo.trackId info) 1) as [?|_]; [lia|].
  rewrite bool_decide_eq_false_2 by assumption.
  rewrite Hhit. now destruct issueRepaint.
Qed.

Lemma requestPixmap_cached_miss (s : State) (dao : CoverArtDAO)
    (info : CoverInfo.t) (size : QSize.t) (issueRepaint : bool) :
  1 <= CoverInfo.trackId info ->
  m_pCoverArtDAO s = Some dao ->
  pixmapCache s
    !! cacheKey (CoverInfo.hash (pendingInfo (m_queueOfUpdates s) info)) size
    = None ->
  requestPixmap info size true issueRepaint s = (QPix.null, s).
Proof.
  intros Hid Hdao Hmiss. unfold requestPixmap. run. rewrite Hdao.
  destruct (Z.ltb_spec (CoverInfo.trackId info) 1) as [?|_]; [lia|].
  destruct (bool_decide _); [reflexivity|].
  now rewrite Hmiss.
Qed.

(** The three ways a request can end. *)
Lemma requestPixmap_outcome (s : State) (info : CoverInfo.t) (size : QSize.t)
    (onlyCached issueRepaint : bool) :
  let info' := pendingInfo (m_queueOfUpdates s) info in
  let r := requestPixmap info size onlyCached issueRepaint s in
  (* turned away, or answered without a signal *)
  snd r = s
  (* answered from the cache, with the signal *)
  \/ (exists pixmap,
         pixmapCache s !! cacheKey (CoverInfo.hash info') size = Some pixmap
         /\ r = (pixmap,
                 with_trace
                   (fun t => t ++ [Emit_pixmapFound (CoverInfo.trackId info) pixmap])
                   s))
  (* a job started *)
  \/ (exists dao,
         m_pCoverArtDAO s = Some dao
         /\ 1 <= CoverInfo.trackId info
         /\ (CoverInfo.trackId info ∉ m_runningIds s)
         /\ onlyCached = false
         /\ r = (QPix.null,
                 with_runningIds (fun ids => {[CoverInfo.trackId info]} ∪ ids)
                   (with_trace
                      (fun t => t ++ dispatchPrelude info'
                                  ++ [QtConcurrent_run
                                        (chosenJob dao info' size issueRepaint)])
                      s))).
Proof.
  intros info' r. subst r.
  destruct (Z.ltb_spec (CoverInfo.trackId info) 1) as [Hlt|Hge].
  { left. now rewrite requestPixmap_invalid. }
  destruct (m_pCoverArtDAO s) as [dao|] eqn:Hdao.
  2:{ left. now rewrite requestPixmap_no_dao. }
  destruct (decide (CoverInfo.trackId info ∈ m_runningIds s)) as [Hin|Hout].
  { left. now rewrite requestPixmap_running. }
  destruct (pixmapCache s !! cacheKey (CoverInfo.hash info') size)
    as [pixmap|] eqn:Hcache.
  { rewrite (requestPixmap_hit s dao info size onlyCached issueRepaint pixmap)
      by assumption.
    destruct issueRepaint; [now left|].
    right; left. exists pixmap. split; reflexivity. }
  destruct onlyCached.
  { left. now rewrite (requestPixmap_cached_miss s dao). }
  right; right. exists dao. repeat split; try assumption.
  now apply requestPixmap_dispatch.
Qed.

(** X1.  A request that finds its key in the cache (the key built from
    the hash after the pending override) returns the cached pixmap at
    once.  Nothing is dispatched and no DAO is asked; the only effect is
    the pixmapFound signal, sent unless issueRepaint is set. *)
Theorem requestPixmap_cache_hit (s : State) (dao : CoverArtDAO) (info : CoverInfo.t)
    (size : QSize.t) (onlyCached issueRepaint : bool) (pixmap : QPixmap) :
  1 <= CoverInfo.trackId info ->
  m_pCoverArtDAO s = Some dao ->
  CoverInfo.trackId info ∉ m_runningIds s ->
  pixmapCache s
    !! cacheKey (CoverInfo.hash (pendingInfo (m_queueOfUpdates s) info)) size
    = Some pixmap ->
  requestPixmap info size onlyCached issueRepaint s
  = (pixmap,
     if issueRepaint then s
     else with_trace
            (fun t => t ++ [Emit_pixmapFound (CoverInfo.trackId info) pixmap]) s).
Proof. apply requestPixmap_hit. Qed.

(** X2.  A request restricted to the cache that misses returns the null
    pixmap and leaves everything as it was: no job, no call, no signal. *)
Theorem requestPixmap_onlyCached_miss (s : State) (dao : CoverArtDAO)
    (info : CoverInfo.t) (size : QSize.t) (issueRepaint : bool) :
  1 <= CoverInfo.trackId info ->
  m_pCoverArtDAO s = Some dao ->
  pixmapCache s
    !! cacheKey (CoverInfo.hash (pendingInfo (m_queueOfUpdates s) info)) size
    = None ->
  requestPixmap info size true issueRepaint s = (QPix.null, s).
Proof. apply requestPixmap_cached_miss. Qed.

(** X3.  Whatever the request, requestPixmap leaves the queue of updates,
    the pixmap cache and the DAO pointers alone and writes nothing to the
    DAOs; either the running ids and the started jobs stay as they are, or
    the requested track joins the running ids and exactly one job is
    started. *)
Theorem requestPixmap_frame (s : State) (info : CoverInfo.t) (size : QSize.t)
    (onlyCached issueRepaint : bool) :
  let s' := snd (requestPixmap info size onlyCached issueRepaint s) in
  m_queueOfUpdates s' = m_queueOfUpdates s
  /\ pixmapCache s' = pixmapCache s
  /\ m_pCoverArtDAO s' = m_pCoverArtDAO s
  /\ m_pTrackDAO s' = m_pTrackDAO s
  /\ countEvents isDAOWrite (trace s') = countEvents isDAOWrite (trace s)
  /\ ((m_runningIds s' = m_runningIds s
       /\ dispatchedJobs (trace s') = dispatchedJobs (trace s))
      \/ ((CoverInfo.trackId info ∉ m_runningIds s)
          /\ m_runningIds s' = {[CoverInfo.trackId info]} ∪ m_runningIds s
          /\ exists job, dispatchedJobs (trace s')
                         = dispatchedJobs (trace s) ++ [job])).
Proof.
  intros s'. subst s'.
  destruct (requestPixmap_outcome s info size onlyCached issueRepaint)
    as [E|[(pixmap & _ & E)|(dao & _ & _ & Hout & _ & E)]]; rewrite E; clear E.
  - repeat split; try reflexivity. now left.
  - cbn [snd]. repeat split; try reflexivity.
    + simpl. rewrite countEvents_app. unfold countEvents at 2; simpl. lia.
    + left. split; [reflexivity|].
      simpl. rewrite dispatchedJobs_app. simpl. now rewrite app_nil_r.
  - cbn [snd]. repeat split; try reflexivity.
    + simpl. rewrite !countEvents_app, dispatchPrelude_no_write.
      unfold countEvents at 2; simpl. lia.
    + right. split; [assumption|]. split; [reflexivity|].
      eexists. simpl. rewrite !dispatchedJobs_app, dispatchPrelude_no_job.
      reflexivity.
Qed.

End RequestPixmap.

(** ** Further properties of changeCoverArt *)

Section ChangeCoverArt.
Context {utils : CoverArtUtils} {qt : Platform}.

Lemma decodeCalls_no_write (trackDAO : TrackDAO) (trackId : Z) (location : string) :
  countEvents isDAOWrite (decodeCalls trackDAO trackId location) = 0%nat.
Proof. unfold decodeCalls. now destruct (String.eqb _ _). Qed.

Lemma decodeCalls_no_job (trackDAO : TrackDAO) (trackId : Z) (location : string) :
  dispatchedJobs (decodeCalls trackDAO trackId location) = [].
Proof. unfold decodeCalls. now destruct (String.eqb _ _). Qed.

Lemma changeCoverArt_rejected (s : State) (trackId : Z) (location : string) :
  trackId < 1 \/ m_pCoverArtDAO s = None \/ m_pTrackDAO s = None ->
  changeCoverArt trackId location s = (false, s).
Proof.
  intros H. unfold changeCoverArt. run.
  destruct (Z.ltb_spec trackId 1) as [_|Hge]; [reflexivity|].
  destruct H as [?|[H|H]]; [lia| |]; rewrite H; [reflexivity|].
  now destruct (m_pCoverArtDAO s).
Qed.

Lemma changeCoverArt_empty (s : State) (coverArtDAO : CoverArtDAO)
    (trackDAO : TrackDAO) (trackId : Z) (location : string) :
  1 <= trackId ->
  m_pCoverArtDAO s = Some coverArtDAO ->
  m_pTrackDAO s = Some trackDAO ->
  QString_isEmpty location = true ->
  changeCoverArt trackId location s
  = (true,
     with_trace (fun t => t ++ [TrackDAO_updateCoverArt trackId (-1)])
       (with_queue (delete trackId) s)).
Proof.
  intros Hid Hc Ht Hloc. unfold changeCoverArt. run. rewrite Hc, Ht, Hloc.
  destruct (Z.ltb_spec trackId 1) as [?|_]; [lia|]. reflexivity.
Qed.

Lemma changeCoverArt_null (s : State) (coverArtDAO : CoverArtDAO)
    (trackDAO : TrackDAO) (trackId : Z) (location : string) :
  1 <= trackId ->
  m_pCoverArtDAO s = Some coverArtDAO ->
  m_pTrackDAO s = Some trackDAO ->
  QString_isEmpty location = false ->
  QImg.isNull (decodedCover trackDAO trackId location) = true ->
  changeCoverArt trackId location s
  = (false,
     with_trace (fun t => t ++ decodeCalls trackDAO trackId location)
       (with_queue (delete trackId) s)).
Proof.
  intros Hid Hc Ht Hloc Hnull.
  unfold decodedCover in Hnull. unfold decodeCalls.
  unfold changeCoverArt. run. rewrite Hc, Ht, Hloc.
  destruct (Z.ltb_spec trackId 1) as [?|_]; [lia|].
  destruct (String.eqb location ID3TAG); simpl; rewrite Hnull; simpl;
    unfold with_trace, with_queue; simpl; now rewrite <- ?app_assoc.
Qed.

Lemma changeCoverArt_ok (s : State) (coverArtDAO : CoverArtDAO)
    (trackDAO : TrackDAO) (trackId : Z) (location : string) :
  1 <= trackId ->
  m_pCoverArtDAO s = Some coverArtDAO ->
  m_pTrackDAO s = Some trackDAO ->
  QString_isEmpty location = false ->
  QImg.isNull (decodedCover trackDAO trackId location) = false ->
  let decoded := decodedCover trackDAO trackId location in
  let img := maybeResizeImage decoded kMaxCoverSize in
  let hash := calculateHash img in
  let calls :=
    decodeCalls trackDAO trackId location
    ++ [Utils_maybeResizeImage decoded kMaxCoverSize;
        Utils_calculateHash img;
        CoverArtDAO_saveCoverArt location hash;
        TrackDAO_updateCoverArt trackId (saveCoverArt coverArtDAO location hash)] in
  changeCoverArt trackId location s
  = (true,
     match pixmapCache s !! hash with
     | Some pixmap =>
         with_trace
           (fun t => t ++ calls ++ [Emit_pixmapFound trackId pixmap;
                                    Emit_requestRepaint])
           (with_queue (delete trackId) s)
     | None =>
         if QPixmapCache_accepts (Pixmap img) then
           with_pixmapCache (insert hash (Pixmap img))
             (with_trace
                (fun t => t ++ calls ++ [Emit_pixmapFound trackId (Pixmap img);
                                         Emit_requestRepaint])
                (with_queue (delete trackId) s))
         else
           with_pixmapCache (delete hash)
             (with_trace (fun t => t ++ calls) (with_queue (delete trackId) s))
     end).
Proof.
  intros Hid Hc Ht Hloc Hnull decoded img hash calls.
  subst calls hash img decoded.
  unfold decodedCover in *. unfold decodeCalls.
  unfold changeCoverArt. run. rewrite Hc, Ht, Hloc.
  destruct (Z.ltb_spec trackId 1) as [?|_]; [lia|].
  destruct (String.eqb location ID3TAG); cbn beta iota; rewrite Hnull; fields;
    (destruct (pixmapCache s !! calculateHash _);
     [|unfold QPix.convertFromImage; destruct (QPixmapCache_accepts _)]);
    fields; rewrite <- ?app_assoc; reflexivity.
Qed.

(** X4.  While a collaborator is missing the entry points do nothing:
    requestPixmap without a cover-art DAO returns the null pixmap, and
    changeCoverArt without either DAO returns false; the state, trace
    included, is unchanged. *)
Theorem unset_collaborator_rejected (s : State) :
  (m_pCoverArtDAO s = None ->
   forall (info : CoverInfo.t) (size : QSize.t) (onlyCached issueRepaint : bool),
     requestPixmap info size onlyCached issueRepaint s = (QPix.null, s))
  /\ (m_pCoverArtDAO s = None \/ m_pTrackDAO s = None ->
      forall (trackId : Z) (location : string),
        changeCoverArt trackId location s = (false, s)).
Proof.
  split.
  - intros H info size oc ir. now apply requestPixmap_no_dao.
  - intros H trackId location. apply changeCoverArt_rejected. tauto.
Qed.

(** X5.  changeCoverArt with an empty location removes the track's
    pending update, tells the track DAO that the track has cover -1 and
    returns true.  No image is decoded, the cover-art DAO is not called
    and the pixmap cache is not touched. *)
Theorem changeCoverArt_empty_location (s : State) (coverArtDAO : CoverArtDAO)
    (trackDAO : TrackDAO) (trackId : Z) :
  1 <= trackId ->
  m_pCoverArtDAO s = Some coverArtDAO ->
  m_pTrackDAO s = Some trackDAO ->
  let r := changeCoverArt trackId EmptyString s in
  fst r = true
  /\ trace (snd r) = trace s ++ [TrackDAO_updateCoverArt trackId (-1)]
  /\ m_queueOfUpdates (snd r) = delete trackId (m_queueOfUpdates s)
  /\ pixmapCache (snd r) = pixmapCache s
  /\ m_runningIds (snd r) = m_runningIds s.
Proof.
  intros Hid Hc Ht r. subst r.
  rewrite (changeCoverArt_empty s coverArtDAO trackDAO) by (assumption || reflexivity).
  repeat split.
Qed.

(** X6.  changeCoverArt on a location that decodes to a non-null image
    returns true after these calls, in this order: the decoding, the
    resize to kMaxCoverSize, the hash, saveCoverArt(location, hash) and
    updateCoverArt(trackId, the id saveCoverArt returned).  The pending
    update of the track is removed.  If the bare hash is in the cache the
    cached pixmap is signalled and the cache stays; else the new pixmap is
    inserted under the bare hash and signalled, or, when the cache refuses
    it, nothing is signalled. *)
Theorem changeCoverArt_success (s : State) (coverArtDAO : CoverArtDAO)
    (trackDAO : TrackDAO) (trackId : Z) (location : string) :
  1 <= trackId ->
  m_pCoverArtDAO s = Some coverArtDAO ->
  m_pTrackDAO s = Some trackDAO ->
  QString_isEmpty location = false ->
  QImg.isNull (decodedCover trackDAO trackId location) = false ->
  let decoded := decodedCover trackDAO trackId location in
  let img := maybeResizeImage decoded kMaxCoverSize in
  let hash := calculateHash img in
  let calls :=
    decodeCalls trackDAO trackId location
    ++ [Utils_maybeResizeImage decoded kMaxCoverSize;
        Utils_calculateHash img;
        CoverArtDAO_saveCoverArt location hash;
        TrackDAO_updateCoverArt trackId (saveCoverArt coverArtDAO location hash)] in
  let r := changeCoverArt trackId location s in
  fst r = true
  /\ m_queueOfUpdates (snd r) = delete trackId (m_queueOfUpdates s)
  /\ m_runningIds (snd r) = m_runningIds s
  /\ match pixmapCache s !! hash with
     | Some pixmap =>
         pixmapCache (snd r) = pixmapCache s
         /\ trace (snd r)
            = trace s ++ calls ++ [Emit_pixmapFound trackId pixmap;
                                   Emit_requestRepaint]
     | None =>
         if QPixmapCache_accepts (Pixmap img) then
           pixmapCache (snd r) = <[hash := Pixmap img]> (pixmapCache s)
           /\ trace (snd r)
              = trace s ++ calls ++ [Emit_pixmapFound trackId (Pixmap img);
                                     Emit_requestRepaint]
         else
           pixmapCache (snd r) = pixmapCache s
           /\ trace (snd r) = trace s ++ calls
     end.
Proof.
  intros Hid Hc Ht Hloc Hnull decoded img hash calls r. subst r.
  rewrite (changeCoverArt_ok s coverArtDAO trackDAO trackId location Hid Hc Ht Hloc Hnull).
  fold decoded. fold img. fold hash. fold calls. cbn [fst snd].
  destruct (pixmapCache s !! hash) eqn:Hcache.
  { repeat split. }
  destruct (QPixmapCache_accepts (Pixmap img)).
  { repeat split. }
  repeat split. simpl. now apply delete_id.
Qed.

(** X7.  Whatever its arguments and its result, changeCoverArt starts no
    job, leaves the running ids alone and touches no other track's
    pending update.  When it returns true the track has no pending update
    any more; when it returns false it has written nothing to the DAOs
    and the pixmap cache is as before. *)
Theorem changeCoverArt_frame (s : State) (trackId : Z) (location : string) :
  let r := changeCoverArt trackId location s in
  m_runningIds (snd r) = m_runningIds s
  /\ dispatchedJobs (trace (snd r)) = dispatchedJobs (trace s)
  /\ (forall other, other <> trackId ->
        m_queueOfUpdates (snd r) !! other = m_queueOfUpdates s !! other)
  /\ (fst r = true -> m_queueOfUpdates (snd r) !! trackId = None)
  /\ (fst r = false ->
        pixmapCache (snd r) = pixmapCache s
        /\ countEvents isDAOWrite (trace (snd r))
           = countEvents isDAOWrite (trace s)).
Proof.
  intros r. subst r.
  destruct (Z.ltb_spec trackId 1) as [Hlt|Hge].
  { rewrite changeCoverArt_rejected by tauto. repeat split; discriminate. }
  destruct (m_pCoverArtDAO s) as [coverArtDAO|] eqn:Hc.
  2:{ rewrite changeCoverArt_rejected by tauto. repeat split; discriminate. }
  destruct (m_pTrackDAO s) as [trackDAO|] eqn:Ht.
  2:{ rewrite changeCoverArt_rejected by tauto. repeat split; discriminate. }
  destruct (QString_isEmpty location) eqn:Hloc.
  { rewrite (changeCoverArt_empty s coverArtDAO trackDAO) by assumption.
    cbn [fst snd]. repeat split; try discriminate.
    - simpl. rewrite dispatchedJobs_app. simpl. now rewrite app_nil_r.
    - intros other Hne. simpl. now apply lookup_delete_ne.
    - intros _. simpl. apply lookup_delete_eq. }
  destruct (QImg.isNull (decodedCover trackDAO trackId location)) eqn:Hnull.
  { rewrite (changeCoverArt_null s coverArtDAO trackDAO) by assumption.
    cbn [fst snd]. repeat split; try discriminate.
    - simpl. rewrite dispatchedJobs_app, decodeCalls_no_job. now rewrite app_nil_r.
    - intros other Hne. simpl. now apply lookup_delete_ne.
    - simpl. rewrite countEvents_app, decodeCalls_no_write. lia. }
  rewrite (changeCoverArt_ok s coverArtDAO trackDAO trackId location Hge Hc Ht Hloc Hnull).
  cbn [fst snd].
  destruct (pixmapCache s !! _) eqn:Hcache;
    [|destruct (QPixmapCache_accepts _)];
    (repeat split; try discriminate;
     [ simpl; rewrite !dispatchedJobs_app, decodeCalls_no_job; simpl;
       now rewrite app_nil_r
     | intros other Hne; simpl; now apply lookup_delete_ne
     | intros _; simpl; apply lookup_delete_eq ]).
Qed.

End ChangeCoverArt.

(** ** Further properties of updateDB and of the slots *)

Section Slots.
Context {utils : CoverArtUtils} {qt : Platform}.

(** The state after the two batched DAO calls of updateDB. *)
Lemma updateDB_flushes (s : State) (coverArtDAO : CoverArtDAO) (trackDAO : TrackDAO)
    (forceUpdate : bool) :
  m_pCoverArtDAO s = Some coverArtDAO ->
  m_pTrackDAO s = Some trackDAO ->
  forceUpdate = true \/ 500 <= Z.of_nat (size (m_queueOfUpdates s)) ->
  updateDB forceUpdate s
  = (tt,
     with_queue (fun _ => ∅)
       (with_trace
          (fun t => t ++ [CoverArtDAO_saveCoverArtBatch (m_queueOfUpdates s);
                          TrackDAO_updateCoverArtBatch
                            (saveCoverArtBatch coverArtDAO (m_queueOfUpdates s))])
          s)).
Proof.
  intros Hc Ht Hgo. unfold updateDB. run. rewrite Hc, Ht.
  assert (E : negb forceUpdate && (Z.of_nat (size (m_queueOfUpdates s)) <? 500)
              = false).
  { destruct Hgo as [->|Hsize]; [reflexivity|].
    destruct (Z.ltb_spec (Z.of_nat (size (m_queueOfUpdates s))) 500); [lia|].
    apply andb_false_r. }
  rewrite E. unfold with_queue, with_trace; simpl. now rewrite <- app_assoc.
Qed.

Lemma updateDB_skips (s : State) (forceUpdate : bool) :
  m_pCoverArtDAO s = None \/ m_pTrackDAO s = None
  \/ (forceUpdate = false /\ Z.of_nat (size (m_queueOfUpdates s)) < 500) ->
  updateDB forceUpdate s = (tt, s).
Proof.
  intros H. unfold updateDB. run.
  destruct (m_pCoverArtDAO s); [|reflexivity].
  destruct (m_pTrackDAO s); [|reflexivity].
  destruct H as [?|[?|[-> Hsize]]]; try discriminate.
  destruct (Z.ltb_spec (Z.of_nat (size (m_queueOfUpdates s))) 500); [|lia].
  reflexivity.
Qed.

(** X8.  With both DAOs set, a forced update, or an update of a queue
    that holds 500 entries or more, hands the whole queue to the batched
    saveCoverArt, hands what that returned to the batched updateCoverArt,
    and leaves the queue empty; the destructor does so with whatever is
    pending.  Cache and running ids are not touched. *)
Theorem updateDB_writes_whole_queue (s : State) (coverArtDAO : CoverArtDAO)
    (trackDAO : TrackDAO) (forceUpdate : bool) :
  m_pCoverArtDAO s = Some coverArtDAO ->
  m_pTrackDAO s = Some trackDAO ->
  forceUpdate = true \/ 500 <= Z.of_nat (size (m_queueOfUpdates s)) ->
  let s' := snd (updateDB forceUpdate s) in
  trace s'
  = trace s ++ [CoverArtDAO_saveCoverArtBatch (m_queueOfUpdates s);
                TrackDAO_updateCoverArtBatch
                  (saveCoverArtBatch coverArtDAO (m_queueOfUpdates s))]
  /\ m_queueOfUpdates s' = ∅
  /\ pixmapCache s' = pixmapCache s
  /\ m_runningIds s' = m_runningIds s
  /\ (snd (CoverArtCache_delete s) = snd (updateDB true s)
      /\ m_queueOfUpdates (snd (CoverArtCache_delete s)) = ∅).
Proof.
  intros Hc Ht Hgo s'. subst s'.
  rewrite (updateDB_flushes s coverArtDAO trackDAO forceUpdate Hc Ht Hgo).
  unfold CoverArtCache_delete.
  rewrite (updateDB_flushes s coverArtDAO trackDAO true Hc Ht) by now left.
  repeat split.
Qed.

(** X9.  updateDB does nothing at all when a DAO is unset, forced or not:
    the pending updates stay in the queue and are not written (so the
    destructor of an object without DAOs drops them with the object).  It
    also does nothing when it is not forced and the queue holds fewer than
    500 entries. *)
Theorem updateDB_does_nothing (s : State) (forceUpdate : bool) :
  m_pCoverArtDAO s = None \/ m_pTrackDAO s = None
  \/ (forceUpdate = false /\ Z.of_nat (size (m_queueOfUpdates s)) < 500) ->
  updateDB forceUpdate s = (tt, s)
  /\ (m_pCoverArtDAO s = None \/ m_pTrackDAO s = None ->
      CoverArtCache_delete s = (tt, s)).
Proof.
  intros H. split; [now apply updateDB_skips|].
  intros Hunset. apply updateDB_skips. tauto.
Qed.

(** The state imageLoaded leaves. *)
Lemma imageLoaded_eq (s : State) (res : FutureResult.t) :
  let key := resultKey res in
  let cached := default QPix.null (pixmapCache s !! key) in
  let insert_it := QPix.isNull cached && negb (QImg.isNull (FutureResult.img res)) in
  let pixmap := if insert_it then Pixmap (FutureResult.img res) else cached in
  imageLoaded res s
  = (tt,
     with_runningIds (fun ids => ids ∖ {[FutureResult.trackId res]})
       (with_trace
          (fun t => t ++ [if FutureResult.issueRepaint res then Emit_requestRepaint
                          else Emit_pixmapFound (FutureResult.trackId res) pixmap])
          (with_pixmapCache
             (fun c => if insert_it then
                         if QPixmapCache_accepts (Pixmap (FutureResult.img res))
                         then <[key := Pixmap (FutureResult.img res)]> c
                         else delete key c
                       else c)
             s))).
Proof.
  intros key cached insert_it pixmap. subst pixmap insert_it cached key.
  unfold imageLoaded. run. unfold QPix.convertFromImage.
  destruct (QPix.isNull _ && negb _); simpl;
    [destruct (QPixmapCache_accepts _); simpl|];
    destruct (FutureResult.issueRepaint res); simpl;
    unfold with_runningIds, with_trace, with_pixmapCache; simpl;
    try reflexivity; destruct s; reflexivity.
Qed.

Lemma imageFound_eq (s : State) (res : FutureResult.t) :
  imageFound res s
  = (tt,
     with_runningIds (fun ids => ids ∖ {[FutureResult.trackId res]})
       (if QHash_contains (m_queueOfUpdates s) (FutureResult.trackId res)
        then afterFoundSignal res s
        else snd (updateDB false
                    (with_queue
                       (insert (FutureResult.trackId res)
                          (FutureResult.coverLocation res, FutureResult.hash res))
                       (afterFoundSignal res s))))).
Proof.
  unfold imageFound, afterFoundSignal. run. unfold QPix.convertFromImage.
  destruct (QPix.isNull _); simpl;
    [destruct (QPixmapCache_accepts _); simpl|];
    destruct (FutureResult.issueRepaint res); simpl;
    destruct (QHash_contains _ _); simpl;
    try (destruct (updateDB false _) as [[] s1]; simpl);
    try reflexivity;
    destruct s; reflexivity.
Qed.

Lemma updateDB_frame (s : State) (forceUpdate : bool) :
  let s' := snd (updateDB forceUpdate s) in
  m_runningIds s' = m_runningIds s
  /\ pixmapCache s' = pixmapCache s
  /\ m_pCoverArtDAO s' = m_pCoverArtDAO s
  /\ m_pTrackDAO s' = m_pTrackDAO s
  /\ dispatchedJobs (trace s') = dispatchedJobs (trace s).
Proof.
  unfold updateDB. run.
  destruct (m_pCoverArtDAO s) eqn:Hc; [|now repeat split].
  destruct (m_pTrackDAO s) eqn:Ht; [|now repeat split].
  destruct (negb forceUpdate && _); fields; [now repeat split|].
  repeat split; try assumption.
  rewrite !dispatchedJobs_app. simpl. now rewrite !app_nil_r.
Qed.

Lemma updateDB_trace (s : State) (forceUpdate : bool) :
  exists rest, trace (snd (updateDB forceUpdate s)) = trace s ++ rest.
Proof.
  unfold updateDB. run.
  destruct (m_pCoverArtDAO s); [|exists []; now rewrite app_nil_r].
  destruct (m_pTrackDAO s); [|exists []; now rewrite app_nil_r].
  destruct (negb forceUpdate && _); fields; [exists []; now rewrite app_nil_r|].
  eexists. rewrite <- app_assoc. reflexivity.
Qed.

Lemma afterFoundSignal_jobs (s : State) (res : FutureResult.t) :
  dispatchedJobs (trace (afterFoundSignal res s)) = dispatchedJobs (trace s).
Proof.
  unfold afterFoundSignal; simpl. rewrite dispatchedJobs_app.
  destruct (FutureResult.issueRepaint res); simpl; now rewrite app_nil_r.
Qed.

(** X10.  Either slot takes the track of its result out of the running
    ids, whatever image the job brought, and starts no job; the DAO
    pointers stay. *)
Theorem slots_release_track (s : State) (res : FutureResult.t) :
  (m_runningIds (snd (imageLoaded res s))
   = m_runningIds s ∖ {[FutureResult.trackId res]}
   /\ dispatchedJobs (trace (snd (imageLoaded res s))) = dispatchedJobs (trace s)
   /\ m_pCoverArtDAO (snd (imageLoaded res s)) = m_pCoverArtDAO s)
  /\ (m_runningIds (snd (imageFound res s))
      = m_runningIds s ∖ {[FutureResult.trackId res]}
      /\ dispatchedJobs (trace (snd (imageFound res s))) = dispatchedJobs (trace s)
      /\ m_pCoverArtDAO (snd (imageFound res s)) = m_pCoverArtDAO s).
Proof.
  split.
  - rewrite imageLoaded_eq. cbn [snd]. repeat split.
    simpl. rewrite dispatchedJobs_app.
    destruct (FutureResult.issueRepaint res); simpl; now rewrite app_nil_r.
  - rewrite imageFound_eq. cbn [snd].
    destruct (QHash_contains _ _).
    + repeat split. simpl. rewrite dispatchedJobs_app.
      destruct (FutureResult.issueRepaint res); simpl; now rewrite app_nil_r.
    + match goal with |- context [updateDB false ?x] =>
        destruct (updateDB_frame x false) as (Hr & _ & Hc & _ & Hj) end.
      simpl in *. rewrite Hr, Hj, Hc. repeat split.
      rewrite dispatchedJobs_app.
      destruct (FutureResult.issueRepaint res); simpl; now rewrite app_nil_r.
Qed.

(** X11.  imageLoaded persists nothing: the queue of updates is as
    before and no DAO is called; the one event it adds is its signal,
    requestRepaint when issueRepaint is set and pixmapFound otherwise. *)
Theorem imageLoaded_persists_nothing (s : State) (res : FutureResult.t) :
  let s' := snd (imageLoaded res s) in
  m_queueOfUpdates s' = m_queueOfUpdates s
  /\ countEvents isDAOCall (trace s') = countEvents isDAOCall (trace s)
  /\ exists pixmap,
       trace s'
       = trace s ++ [if FutureResult.issueRepaint res then Emit_requestRepaint
                     else Emit_pixmapFound (FutureResult.trackId res) pixmap].
Proof.
  intros s'. subst s'. rewrite imageLoaded_eq. cbn [snd]. fields.
  repeat split.
  - rewrite countEvents_app.
    destruct (FutureResult.issueRepaint res); unfold countEvents; simpl; lia.
  - eexists. reflexivity.
Qed.

(** X12.  A non-null pixmap already cached under the result's key is
    kept: neither slot replaces it, and the pixmapFound signal (sent when
    issueRepaint is off) carries the cached pixmap, not the job's image. *)
Theorem slots_keep_cached_pixmap (s : State) (res : FutureResult.t)
    (cached : QPixmap) :
  pixmapCache s !! resultKey res = Some cached ->
  QPix.isNull cached = false ->
  let signal := if FutureResult.issueRepaint res then Emit_requestRepaint
                else Emit_pixmapFound (FutureResult.trackId res) cached in
  (pixmapCache (snd (imageLoaded res s)) = pixmapCache s
   /\ trace (snd (imageLoaded res s)) = trace s ++ [signal])
  /\ (pixmapCache (snd (imageFound res s)) = pixmapCache s
      /\ exists rest, trace (snd (imageFound res s)) = trace s ++ signal :: rest).
Proof.
  intros Hcache Hnonnull signal. subst signal. split.
  - rewrite imageLoaded_eq. cbn [snd]. simpl. rewrite Hcache. simpl.
    rewrite Hnonnull. simpl. split; reflexivity.
  - rewrite imageFound_eq. cbn [snd].
    assert (Hc : pixmapCache (afterFoundSignal res s) = pixmapCache s).
    { unfold afterFoundSignal. simpl. rewrite Hcache. simpl.
      now rewrite Hnonnull. }
    assert (Ht : trace (afterFoundSignal res s)
                 = trace s
                     ++ [if FutureResult.issueRepaint res then Emit_requestRepaint
                         else Emit_pixmapFound (FutureResult.trackId res) cached]).
    { unfold afterFoundSignal. simpl. rewrite Hcache. simpl.
      now rewrite Hnonnull. }
    destruct (QHash_contains _ _).
    + cbn [trace pixmapCache with_runningIds]. split; [exact Hc|].
      exists []. exact Ht.
    + match goal with |- context [updateDB false ?x] =>
        destruct (updateDB_frame x false) as (_ & Hp & _);
        destruct (updateDB_trace x false) as (rest & Hrest) end.
      cbn [trace pixmapCache with_queue with_runningIds] in Hp, Hrest |- *.
      rewrite Hp, Hrest, Ht.
      split; [exact Hc|]. exists rest. now rewrite <- app_assoc.
Qed.

(** X13.  imageFound on a track without a pending update records the
    discovery: the queue gains (trackId -> (coverLocation, hash)).  As
    long as a DAO is unset or the queue held fewer than 499 entries, that
    is all: no DAO is called. *)
Theorem imageFound_enqueues (s : State) (res : FutureResult.t) :
  m_queueOfUpdates s !! FutureResult.trackId res = None ->
  m_pCoverArtDAO s = None \/ m_pTrackDAO s = None
  \/ Z.of_nat (size (m_queueOfUpdates s)) < 499 ->
  let s' := snd (imageFound res s) in
  m_queueOfUpdates s'
  = <[FutureResult.trackId res
      := (FutureResult.coverLocation res, FutureResult.hash res)]>
      (m_queueOfUpdates s)
  /\ countEvents isDAOCall (trace s') = countEvents isDAOCall (trace s).
Proof.
  intros Hnone Hquiet s'. subst s'. rewrite imageFound_eq. cbn [snd].
  unfold QHash_contains. rewrite Hnone.
  rewrite updateDB_skips.
  - cbn [snd]. split; [reflexivity|].
    simpl. rewrite countEvents_app.
    destruct (FutureResult.issueRepaint res); unfold countEvents; simpl; lia.
  - simpl. destruct Hquiet as [H|[H|H]]; [now left | now right; left|].
    right; right. split; [reflexivity|].
    rewrite map_size_insert_None by assumption. lia.
Qed.

(** X14.  The discovery that brings the queue to 500 entries triggers the
    write: with both DAOs set, imageFound on a track without a pending
    update, when the queue holds 499 entries or more, makes one batched
    saveCoverArt call with the queue including the new entry, one batched
    updateCoverArt call with the answer, and leaves the queue empty. *)
Theorem imageFound_flushes_at_threshold (s : State) (coverArtDAO : CoverArtDAO)
    (trackDAO : TrackDAO) (res : FutureResult.t) :
  m_queueOfUpdates s !! FutureResult.trackId res = None ->
  m_pCoverArtDAO s = Some coverArtDAO ->
  m_pTrackDAO s = Some trackDAO ->
  499 <= Z.of_nat (size (m_queueOfUpdates s)) ->
  let s' := snd (imageFound res s) in
  let batch := <[FutureResult.trackId res
                 := (FutureResult.coverLocation res, FutureResult.hash res)]>
                 (m_queueOfUpdates s) in
  m_queueOfUpdates s' = ∅
  /\ (exists signal,
        isDAOCall signal = false
        /\ trace s'
           = trace s
               ++ [signal;
                   CoverArtDAO_saveCoverArtBatch batch;
                   TrackDAO_updateCoverArtBatch
                     (saveCoverArtBatch coverArtDAO batch)])
  /\ countEvents isDAOCall (trace s') = (countEvents isDAOCall (trace s) + 2)%nat.
Proof.
  intros Hnone Hc Ht Hsize s' batch. subst s' batch.
  rewrite imageFound_eq. cbn [snd].
  unfold QHash_contains. rewrite Hnone.
  rewrite (updateDB_flushes _ coverArtDAO trackDAO false).
  - cbn [snd]. unfold afterFoundSignal. fields. split; [reflexivity|]. split.
    + eexists. split; [|rewrite <- app_assoc; reflexivity].
      now destruct (FutureResult.issueRepaint res).
    + rewrite !countEvents_app.
      destruct (FutureResult.issueRepaint res); unfold countEvents; simpl;
        now rewrite Nat.add_0_r.
  - exact Hc.
  - exact Ht.
  - right. unfold afterFoundSignal. fields.
    rewrite map_size_insert_None by assumption. lia.
Qed.

End Slots.

(** ** The workers *)

Section Workers.
Context {utils : CoverArtUtils} {qt : Platform}.

(** The workers only append to the trace they are given. *)
Lemma loadImage_trace (coverInfo : CoverArtInfo.t) (size : QSize.t)
    (issueRepaint : bool) (t : Trace) :
  loadImage coverInfo size issueRepaint t
  = (fst (loadImage coverInfo size issueRepaint []),
     t ++ snd (loadImage coverInfo size issueRepaint [])).
Proof.
  unfold loadImage. run.
  destruct (String.eqb _ _); destruct (QSize.isNull size); simpl;
    now rewrite <- ?app_assoc.
Qed.

Lemma searchImage_trace (coverInfo : CoverArtInfo.t) (size : QSize.t)
    (issueRepaint : bool) (t : Trace) :
  searchImage coverInfo size issueRepaint t
  = (fst (searchImage coverInfo size issueRepaint []),
     t ++ snd (searchImage coverInfo size issueRepaint [])).
Proof.
  search_cases size; simpl; now rewrite <- ?app_assoc.
Qed.

Lemma loadImage_fields (coverInfo : CoverArtInfo.t) (size : QSize.t)
    (issueRepaint : bool) (t : Trace) :
  let res := fst (loadImage coverInfo size issueRepaint t) in
  FutureResult.trackId res = CoverArtInfo.trackId coverInfo
  /\ FutureResult.coverLocation res = CoverArtInfo.coverLocation coverInfo
  /\ FutureResult.hash res = CoverArtInfo.hash coverInfo
  /\ FutureResult.croppedSize res = size
  /\ FutureResult.issueRepaint res = issueRepaint.
Proof.
  unfold loadImage. run.
  destruct (String.eqb _ _); destruct (QSize.isNull size); simpl; repeat split.
Qed.

Lemma searchImage_fields (coverInfo : CoverArtInfo.t) (size : QSize.t)
    (issueRepaint : bool) (t : Trace) :
  let res := fst (searchImage coverInfo size issueRepaint t) in
  FutureResult.trackId res = CoverArtInfo.trackId coverInfo
  /\ FutureResult.croppedSize res = size
  /\ FutureResult.issueRepaint res = issueRepaint.
Proof.
  search_cases size; simpl; repeat split.
Qed.

Lemma loadImage_no_job (coverInfo : CoverArtInfo.t) (size : QSize.t)
    (issueRepaint : bool) :
  dispatchedJobs (snd (loadImage coverInfo size issueRepaint [])) = [].
Proof.
  unfold loadImage. run.
  destruct (String.eqb _ _); destruct (QSize.isNull size); reflexivity.
Qed.

Lemma searchImage_no_job (coverInfo : CoverArtInfo.t) (size : QSize.t)
    (issueRepaint : bool) :
  dispatchedJobs (snd (searchImage coverInfo size issueRepaint [])) = [].
Proof.
  search_cases size; reflexivity.
Qed.

(** X15.  A load job trusts what it is given: the result carries the
    track id, the location and the hash of its input unchanged.  It
    decodes the embedded cover for the sentinel location and the file
    otherwise (one decode), then resizes for a null target size and crops
    otherwise (one of the two); it computes no hash, searches no directory
    and asks no DAO. *)
Theorem loadImage_trusts_request (coverInfo : CoverArtInfo.t) (size : QSize.t)
    (issueRepaint : bool) (t : Trace) :
  let location := CoverArtInfo.coverLocation coverInfo in
  let decoded := if String.eqb location ID3TAG
                 then extractEmbeddedCover (CoverArtInfo.trackLocation coverInfo)
                 else QImage_fromFile location in
  loadImage coverInfo size issueRepaint t
  = (FutureResult.mk (CoverArtInfo.trackId coverInfo) location
       (CoverArtInfo.hash coverInfo) size issueRepaint
       (if QSize.isNull size then maybeResizeImage decoded kMaxCoverSize
        else cropImage decoded size),
     t ++ [if String.eqb location ID3TAG
           then Utils_extractEmbeddedCover (CoverArtInfo.trackLocation coverInfo)
           else Decode_QImage location;
           if QSize.isNull size then Utils_maybeResizeImage decoded kMaxCoverSize
           else Utils_cropImage decoded size]).
Proof.
  unfold loadImage. run.
  destruct (String.eqb _ _); destruct (QSize.isNull size); simpl;
    now rewrite <- ?app_assoc.
Qed.

(** X16.  A search job for a track without an embedded cover falls back
    to the track's directory: the location is what searchInTrackDirectory
    answered (for the track's directory, base name and album), the image
    is the file at that location, decoded and resized to kMaxCoverSize,
    and the hash is the hash of that resized image, taken before the crop
    to a non-null target size. *)
Theorem searchImage_directory_fallback (coverInfo : CoverArtInfo.t) (size : QSize.t)
    (issueRepaint : bool) (t : Trace) :
  QImg.isNull (extractEmbeddedCover (CoverArtInfo.trackLocation coverInfo)) = true ->
  let location :=
    searchInTrackDirectory (CoverArtInfo.trackDirectory coverInfo)
      (CoverArtInfo.trackBaseName coverInfo) (CoverArtInfo.album coverInfo) in
  let img := maybeResizeImage (QImage_fromFile location) kMaxCoverSize in
  searchImage coverInfo size issueRepaint t
  = (FutureResult.mk (CoverArtInfo.trackId coverInfo) location (calculateHash img)
       size issueRepaint
       (if QSize.isNull size then img else cropImage img size),
     t ++ [Utils_extractEmbeddedCover (CoverArtInfo.trackLocation coverInfo);
           Utils_searchInTrackDirectory (CoverArtInfo.trackDirectory coverInfo)
             (CoverArtInfo.trackBaseName coverInfo) (CoverArtInfo.album coverInfo);
           Decode_QImage location;
           Utils_maybeResizeImage (QImage_fromFile location) kMaxCoverSize;
           Utils_calculateHash img]
       ++ (if QSize.isNull size then [] else [Utils_cropImage img size])).
Proof.
  intros Hnull location img. subst img location.
  unfold searchImage. run. rewrite Hnull. simpl. rewrite ?Hnull. simpl.
  destruct (QSize.isNull size); simpl; now rewrite <- ?app_assoc.
Qed.

(** What a finished job does to the running ids and to the DAO pointer. *)
Lemma finished_running (s : State) (job : Job) :
  m_runningIds (snd (finished job s)) = m_runningIds s ∖ {[jobTrackId job]}
  /\ m_pCoverArtDAO (snd (finished job s)) = m_pCoverArtDAO s
  /\ dispatchedJobs (trace (snd (finished job s))) = dispatchedJobs (trace s).
Proof.
  destruct job as [coverInfo size issueRepaint|coverInfo size issueRepaint];
    unfold finished, bind, lift; simpl.
  - rewrite searchImage_trace. cbn [fst snd].
    destruct (searchImage_fields coverInfo size issueRepaint []) as (Hid & _).
    cbv zeta in Hid. rewrite imageFound_eq. cbn [snd]. rewrite Hid.
    destruct (QHash_contains _ _).
    + repeat split. simpl. rewrite !dispatchedJobs_app, searchImage_no_job.
      destruct issueRepaint;
        destruct (FutureResult.issueRepaint _); simpl; now rewrite !app_nil_r.
    + match goal with |- context [updateDB false ?x] =>
        destruct (updateDB_frame x false) as (Hr & _ & Hc & _ & Hj) end.
      simpl in *. rewrite Hr, Hj, Hc. repeat split.
      rewrite !dispatchedJobs_app, searchImage_no_job.
      destruct (FutureResult.issueRepaint _); simpl; now rewrite !app_nil_r.
  - rewrite loadImage_trace. cbn [fst snd].
    destruct (loadImage_fields coverInfo size issueRepaint []) as (Hid & _).
    cbv zeta in Hid. rewrite imageLoaded_eq. cbn [snd]. rewrite Hid.
    repeat split. simpl. rewrite !dispatchedJobs_app, loadImage_no_job.
    destruct (FutureResult.issueRepaint _); simpl; now rewrite !app_nil_r.
Qed.

End Workers.

(** ** A request, its job and the next request *)

Section RoundTrips.
Context {utils : CoverArtUtils} {qt : Platform}.

(** X17.  Load round trip.  A request for a valid track that is neither
    running nor cached, whose cover location is trusted (a load job),
    starts the job; when the job has finished with a non-null image that
    the cache accepts, the image is cached under the request's key, the
    track is no longer running, the queue of updates is untouched, and
    the same request is now answered from the cache with that image. *)
Theorem load_round_trip (s : State) (dao : CoverArtDAO) (info : CoverInfo.t)
    (size : QSize.t) (issueRepaint onlyCached2 issueRepaint2 : bool) :
  1 <= CoverInfo.trackId info ->
  m_pCoverArtDAO s = Some dao ->
  CoverInfo.trackId info ∉ m_runningIds s ->
  let info' := pendingInfo (m_queueOfUpdates s) info in
  let key := cacheKey (CoverInfo.hash info') size in
  pixmapCache s !! key = None ->
  wantsSearch info' = false ->
  let coverInfo :=
    CoverArtInfo.mk (CoverInfo.trackId info) (CoverInfo.coverLocation info')
      (CoverInfo.hash info') EmptyString EmptyString EmptyString
      (CoverInfo.trackLocation info') in
  let img := FutureResult.img (fst (loadImage coverInfo size issueRepaint [])) in
  QImg.isNull img = false ->
  QPixmapCache_accepts (Pixmap img) = true ->
  let s1 := snd (requestPixmap info size false issueRepaint s) in
  let s2 := snd (finished (LoadJob coverInfo size issueRepaint) s1) in
  dispatchedJobs (trace s1)
  = dispatchedJobs (trace s) ++ [LoadJob coverInfo size issueRepaint]
  /\ m_runningIds s2 = m_runningIds s
  /\ m_queueOfUpdates s2 = m_queueOfUpdates s
  /\ pixmapCache s2 = <[key := Pixmap img]> (pixmapCache s)
  /\ requestPixmap info size onlyCached2 issueRepaint2 s2
     = (Pixmap img,
        if issueRepaint2 then s2
        else with_trace
               (fun t => t ++ [Emit_pixmapFound (CoverInfo.trackId info) (Pixmap img)])
               s2).
Proof.
  intros Hid Hdao Hrun info' key Hmiss Hload coverInfo img Hnonnull Haccept s1 s2.
  assert (Htid : CoverInfo.trackId info' = CoverInfo.trackId info)
    by apply pendingInfo_trackId.
  assert (Es1 : s1 = with_runningIds (fun ids => {[CoverInfo.trackId info]} ∪ ids)
                       (with_trace
                          (fun t => t ++ dispatchPrelude info'
                                      ++ [QtConcurrent_run
                                            (LoadJob coverInfo size issueRepaint)])
                          s)).
  { subst s1. rewrite (requestPixmap_dispatch s dao info size issueRepaint Hid Hdao Hrun Hmiss).
    cbn [snd]. fold info'. unfold chosenJob. rewrite Hload, Htid. reflexivity. }
  destruct (loadImage_fields coverInfo size issueRepaint []) as (Rid & _ & Rhash & Rsize & _).
  cbv zeta in Rid, Rhash, Rsize. simpl in Rid, Rhash.
  assert (Es2 : s2 = snd (imageLoaded (fst (loadImage coverInfo size issueRepaint []))
                            (with_trace
                               (fun t => t ++ snd (loadImage coverInfo size issueRepaint []))
                               s1))).
  { subst s2. unfold finished, bind, lift. rewrite loadImage_trace. cbn [fst snd].
    destruct (imageLoaded _ _). reflexivity. }
  assert (Hkey : resultKey (fst (loadImage coverInfo size issueRepaint [])) = key).
  { unfold resultKey. now rewrite Rhash, Rsize. }
  rewrite imageLoaded_eq in Es2. cbn [snd] in Es2. rewrite Hkey, Rid in Es2.
  fold img in Es2.
  assert (Hmiss1 : pixmapCache s1 !! key = None) by (rewrite Es1; exact Hmiss).
  simpl in Es2. rewrite Hmiss1 in Es2. simpl in Es2.
  rewrite Hnonnull, Haccept in Es2. simpl in Es2.
  assert (Hcache2 : pixmapCache s2 = <[key := Pixmap img]> (pixmapCache s)).
  { rewrite Es2, Es1. reflexivity. }
  assert (Hqueue2 : m_queueOfUpdates s2 = m_queueOfUpdates s).
  { rewrite Es2, Es1. reflexivity. }
  assert (Hrun2 : m_runningIds s2 = m_runningIds s).
  { rewrite Es2, Es1. simpl. set_solver. }
  split.
  { rewrite Es1. simpl. rewrite !dispatchedJobs_app, dispatchPrelude_no_job.
    reflexivity. }
  split; [exact Hrun2|]. split; [exact Hqueue2|]. split; [exact Hcache2|].
  apply (requestPixmap_hit s2 dao).
  - exact Hid.
  - rewrite Es2, Es1. exact Hdao.
  - rewrite Hrun2. exact Hrun.
  - rewrite Hqueue2, Hcache2. fold info'. fold key. apply lookup_insert_eq.
Qed.

(** X18.  Search round trip.  A request for a valid track that is neither
    running nor cached and has no pending update starts a search job when
    its hash is empty or its cover file is gone.  When the job has
    finished (the DAO record being for the requested track, the queue
    staying below the write threshold, the cache accepting the pixmap),
    the track is no longer running, the discovery is pending under the
    track, trackInDBHash gives the discovered location, and every later
    request for the track and the same size, whatever hash it carries, is
    answered from the cache with the job's image: the null pixmap when
    the job found no cover. *)
Theorem search_round_trip (s : State) (dao : CoverArtDAO) (info : CoverInfo.t)
    (croppedSize : QSize.t) (issueRepaint : bool) :
  1 <= CoverInfo.trackId info ->
  m_pCoverArtDAO s = Some dao ->
  CoverInfo.trackId info ∉ m_runningIds s ->
  m_queueOfUpdates s !! CoverInfo.trackId info = None ->
  pixmapCache s !! cacheKey (CoverInfo.hash info) croppedSize = None ->
  wantsSearch info = true ->
  let coverInfo := getCoverArtInfo dao (CoverInfo.trackId info) in
  CoverArtInfo.trackId coverInfo = CoverInfo.trackId info ->
  m_pTrackDAO s = None \/ Z.of_nat (size (m_queueOfUpdates s)) < 499 ->
  let res := fst (searchImage coverInfo croppedSize issueRepaint []) in
  pixmapCache s !! resultKey res = None ->
  QPixmapCache_accepts (Pixmap (FutureResult.img res)) = true ->
  let s1 := snd (requestPixmap info croppedSize false issueRepaint s) in
  let s2 := snd (finished (SearchJob coverInfo croppedSize issueRepaint) s1) in
  dispatchedJobs (trace s1)
  = dispatchedJobs (trace s) ++ [SearchJob coverInfo croppedSize issueRepaint]
  /\ m_runningIds s2 = m_runningIds s
  /\ m_queueOfUpdates s2
     = <[CoverInfo.trackId info
         := (FutureResult.coverLocation res, FutureResult.hash res)]>
         (m_queueOfUpdates s)
  /\ pixmapCache s2
     = <[resultKey res := Pixmap (FutureResult.img res)]> (pixmapCache s)
  /\ fst (trackInDBHash (CoverInfo.trackId info) s2) = FutureResult.coverLocation res
  /\ (forall (info2 : CoverInfo.t) (onlyCached2 issueRepaint2 : bool),
        CoverInfo.trackId info2 = CoverInfo.trackId info ->
        requestPixmap info2 croppedSize onlyCached2 issueRepaint2 s2
        = (Pixmap (FutureResult.img res),
           if issueRepaint2 then s2
           else with_trace
                  (fun t => t ++ [Emit_pixmapFound (CoverInfo.trackId info)
                                    (Pixmap (FutureResult.img res))])
                  s2)).
Proof.
  intros Hid Hdao Hrun Hnone Hmiss Hsearch coverInfo Hanswer Hquiet res
    Hfresh Haccept s1 s2.
  assert (Hinfo : pendingInfo (m_queueOfUpdates s) info = info).
  { unfold pendingInfo, QHash_contains. now rewrite Hnone. }
  assert (Es1 : s1 = with_runningIds (fun ids => {[CoverInfo.trackId info]} ∪ ids)
                       (with_trace
                          (fun t => t ++ dispatchPrelude info
                                      ++ [QtConcurrent_run
                                            (SearchJob coverInfo croppedSize issueRepaint)])
                          s)).
  { subst s1. rewrite (requestPixmap_dispatch s dao info croppedSize issueRepaint Hid Hdao Hrun)
      by (rewrite Hinfo; exact Hmiss).
    cbn [snd]. rewrite Hinfo. unfold chosenJob. rewrite Hsearch. reflexivity. }
  destruct (searchImage_fields coverInfo croppedSize issueRepaint []) as (Rid & Rsize & _).
  cbv zeta in Rid, Rsize. fold res in Rid, Rsize. rewrite Hanswer in Rid.
  assert (Es2 : s2 = snd (imageFound res
                            (with_trace
                               (fun t => t ++ snd (searchImage coverInfo croppedSize issueRepaint []))
                               s1))).
  { subst s2. unfold finished, bind, lift. rewrite searchImage_trace. cbn [fst snd].
    fold res. destruct (imageFound _ _). reflexivity. }
  rewrite imageFound_eq in Es2. cbn [snd] in Es2. rewrite Rid in Es2.
  assert (Hq1 : m_queueOfUpdates s1 = m_queueOfUpdates s) by (rewrite Es1; reflexivity).
  simpl in Es2. rewrite Hq1 in Es2. unfold QHash_contains in Es2.
  rewrite Hnone in Es2.
  rewrite updateDB_skips in Es2.
  2:{ simpl. rewrite Es1. simpl.
      destruct Hquiet as [H|H]; [now right; left|].
      right; right. split; [reflexivity|].
      rewrite map_size_insert_None by assumption. lia. }
  cbn [snd] in Es2. unfold afterFoundSignal in Es2. simpl in Es2.
  assert (Hfresh1 : pixmapCache s1 !! resultKey res = None)
    by (rewrite Es1; exact Hfresh).
  rewrite Hfresh1 in Es2. simpl in Es2. rewrite Haccept in Es2.
  assert (Hcache2 : pixmapCache s2
                    = <[resultKey res := Pixmap (FutureResult.img res)]> (pixmapCache s)).
  { rewrite Es2, Es1. reflexivity. }
  assert (Hqueue2 : m_queueOfUpdates s2
                    = <[CoverInfo.trackId info
                        := (FutureResult.coverLocation res, FutureResult.hash res)]>
                        (m_queueOfUpdates s)).
  { rewrite Es2, Es1. reflexivity. }
  assert (Hrun2 : m_runningIds s2 = m_runningIds s).
  { rewrite Es2, Es1. simpl. set_solver. }
  split.
  { rewrite Es1. simpl. rewrite !dispatchedJobs_app, dispatchPrelude_no_job.
    reflexivity. }
  split; [exact Hrun2|]. split; [exact Hqueue2|]. split; [exact Hcache2|].
  split.
  { unfold trackInDBHash, bind, get, ret, QHash_value. simpl.
    rewrite Hqueue2, lookup_insert_eq. reflexivity. }
  intros info2 oc2 ir2 Hsame. rewrite <- Hsame.
  apply (requestPixmap_hit s2 dao).
  - rewrite Hsame. exact Hid.
  - rewrite Es2, Es1. exact Hdao.
  - rewrite Hrun2, Hsame. exact Hrun.
  - rewrite Hqueue2, Hcache2.
    unfold pendingInfo, QHash_contains, QHash_value. rewrite Hsame.
    rewrite lookup_insert_eq. simpl.
    unfold resultKey. rewrite Rsize. apply lookup_insert_eq.
Qed.

(** X19.  The slot releases the track named in the job's result, and for
    a search job that is the trackId of the record getCoverArtInfo
    returned, not the id the request was made for.  After a search
    request and its completion the requested track is therefore still
    marked as running exactly when the DAO's record carries another id,
    and every further request for it is then dropped. *)
Theorem search_releases_reported_track (s : State) (dao : CoverArtDAO)
    (info : CoverInfo.t) (size : QSize.t) (issueRepaint : bool) :
  1 <= CoverInfo.trackId info ->
  m_pCoverArtDAO s = Some dao ->
  CoverInfo.trackId info ∉ m_runningIds s ->
  let info' := pendingInfo (m_queueOfUpdates s) info in
  pixmapCache s !! cacheKey (CoverInfo.hash info') size = None ->
  wantsSearch info' = true ->
  let reported := CoverArtInfo.trackId (getCoverArtInfo dao (CoverInfo.trackId info)) in
  let s1 := snd (requestPixmap info size false issueRepaint s) in
  let s2 := snd (finished (chosenJob dao info' size issueRepaint) s1) in
  m_runningIds s2 = ({[CoverInfo.trackId info]} ∪ m_runningIds s) ∖ {[reported]}
  /\ (CoverInfo.trackId info ∈ m_runningIds s2 <-> reported <> CoverInfo.trackId info)
  /\ (reported <> CoverInfo.trackId info ->
      forall (info2 : CoverInfo.t) (size2 : QSize.t) (onlyCached2 issueRepaint2 : bool),
        CoverInfo.trackId info2 = CoverInfo.trackId info ->
        requestPixmap info2 size2 onlyCached2 issueRepaint2 s2 = (QPix.null, s2)).
Proof.
  intros Hid Hdao Hrun info' Hmiss Hsearch reported s1 s2.
  assert (Htid : CoverInfo.trackId info' = CoverInfo.trackId info)
    by apply pendingInfo_trackId.
  assert (Hjob : jobTrackId (chosenJob dao info' size issueRepaint) = reported).
  { unfold chosenJob. rewrite Hsearch. simpl. now rewrite Htid. }
  assert (Hr1 : m_runningIds s1 = {[CoverInfo.trackId info]} ∪ m_runningIds s).
  { subst s1. now rewrite (requestPixmap_dispatch s dao info size issueRepaint Hid Hdao Hrun Hmiss). }
  destruct (finished_running s1 (chosenJob dao info' size issueRepaint)) as (Hr2 & _).
  fold s2 in Hr2. rewrite Hjob, Hr1 in Hr2.
  split; [exact Hr2|].
  assert (Hiff : CoverInfo.trackId info ∈ m_runningIds s2
                 <-> reported <> CoverInfo.trackId info).
  { rewrite Hr2. set_solver. }
  split; [exact Hiff|].
  intros Hne info2 size2 oc2 ir2 Hsame.
  apply requestPixmap_running. rewrite Hsame. now apply Hiff.
Qed.

End RoundTrips.

(** ** The running ids and the unfinished futures *)

Lemma delete_running (l : list Z) (n : nat) (x : Z) :
  NoDup l -> l !! n = Some x ->
  NoDup (delete n l)
  /\ list_to_set (delete n l) =@{gset Z} list_to_set l ∖ {[x]}.
Proof.
  revert n. induction l as [|y l IH]; intros n Hnd Hn; [discriminate|].
  apply NoDup_cons in Hnd as [Hy Hnd].
  destruct n as [|n]; simpl in *.
  - injection Hn as ->. split; [assumption|].
    assert (x ∉ (list_to_set l : gset Z))
      by (rewrite elem_of_list_to_set; exact Hy).
    set_solver.
  - destruct (IH n Hnd Hn) as [IH1 IH2]. split.
    + apply NoDup_cons. split; [|assumption].
      intros Hin. apply Hy. eapply list_elem_of_delete_inv, Hin.
    + rewrite IH2.
      assert (x <> y).
      { intros ->. apply Hy. eapply list_elem_of_lookup_2, Hn. }
      set_solver.
Qed.

Section InFlight.
Context {utils : CoverArtUtils} {qt : Platform}.

Lemma changeCoverArt_keeps_dao (s : State) (trackId : Z) (location : string) :
  m_pCoverArtDAO (snd (changeCoverArt trackId location s)) = m_pCoverArtDAO s
  /\ m_runningIds (snd (changeCoverArt trackId location s)) = m_runningIds s.
Proof.
  destruct (Z.ltb_spec trackId 1) as [Hlt|Hge].
  { now rewrite changeCoverArt_rejected by tauto. }
  destruct (m_pCoverArtDAO s) as [coverArtDAO|] eqn:Hc.
  2:{ rewrite changeCoverArt_rejected by tauto. now split. }
  destruct (m_pTrackDAO s) as [trackDAO|] eqn:Ht.
  2:{ rewrite changeCoverArt_rejected by tauto. now split. }
  destruct (QString_isEmpty location) eqn:Hloc.
  { rewrite (changeCoverArt_empty s coverArtDAO trackDAO) by assumption. now split. }
  destruct (QImg.isNull (decodedCover trackDAO trackId location)) eqn:Hnull.
  { rewrite (changeCoverArt_null s coverArtDAO trackDAO) by assumption. now split. }
  rewrite (changeCoverArt_ok s coverArtDAO trackDAO trackId location Hge Hc Ht Hloc Hnull).
  cbn [snd].
  destruct (pixmapCache s !! _); [|destruct (QPixmapCache_accepts _)]; now split.
Qed.

Lemma step_keeps_dao (c : Call) (sys : State * list Job) :
  m_pCoverArtDAO (fst (step c sys)) = m_pCoverArtDAO (fst sys).
Proof.
  destruct sys as [s futures]. destruct c as [info size oc ir|trackId location|n]; simpl.
  - destruct (requestPixmap_outcome s info size oc ir)
      as [E|[(pixmap & _ & E)|(dao & _ & _ & _ & _ & E)]]; rewrite E; reflexivity.
  - apply changeCoverArt_keeps_dao.
  - destruct (futures !! n) as [job|]; [|reflexivity].
    simpl. apply finished_running.
Qed.

Lemma step_in_flight (c : Call) (sys : State * list Job) :
  answersForTrack (m_pCoverArtDAO (fst sys)) ->
  inFlightConsistent sys ->
  inFlightConsistent (step c sys).
Proof.
  destruct sys as [s futures]. unfold inFlightConsistent. simpl.
  intros Hanswers [Hnodup Hids].
  destruct c as [info size oc ir|trackId location|n]; simpl.
  - destruct (requestPixmap_outcome s info size oc ir)
      as [E|[(pixmap & _ & E)|(dao & Hdao & _ & Hout & _ & E)]]; rewrite E; clear E;
      cbn [fst snd].
    + rewrite drop_all. simpl. rewrite app_nil_r. now split.
    + simpl. rewrite drop_app_length. simpl. rewrite app_nil_r. now split.
    + simpl. rewrite drop_app_length, dispatchedJobs_app, dispatchPrelude_no_job.
      simpl. rewrite fmap_snoc.
      assert (Hjob : jobTrackId (chosenJob dao (pendingInfo (m_queueOfUpdates s) info)
                                   size ir) = CoverInfo.trackId info).
      { unfold chosenJob. destruct (wantsSearch _); simpl.
        - rewrite pendingInfo_trackId. now apply Hanswers.
        - apply pendingInfo_trackId. }
      rewrite Hjob. split.
      * apply NoDup_app. split; [assumption|]. split; [|apply NoDup_singleton].
        intros x Hx Hx'. apply list_elem_of_singleton in Hx'. subst x.
        apply Hout. rewrite Hids. now apply elem_of_list_to_set.
      * rewrite list_to_set_snoc_L, Hids. set_solver.
  - destruct (changeCoverArt_keeps_dao s trackId location) as [_ Hr].
    rewrite Hr. now split.
  - destruct (futures !! n) as [job|] eqn:Hn; [|now split].
    simpl. destruct (finished_running s job) as (Hr & _). rewrite Hr, Hids.
    rewrite list_fmap_delete.
    assert (Hn' : (jobTrackId <$> futures) !! n = Some (jobTrackId job))
      by (rewrite list_lookup_fmap, Hn; reflexivity).
    destruct (delete_running _ n _ Hnodup Hn') as [H1 H2].
    split; [exact H1|]. now rewrite H2.
Qed.

(** X20.  The running ids mirror the unfinished futures.  Start from a
    state where m_runningIds holds exactly the tracks of the unfinished
    futures, each once, with a cover-art DAO whose records carry the id
    they were asked for.  Then after any sequence of requestPixmap calls,
    changeCoverArt calls and futures finishing in any order, this is
    still so: no two unfinished futures are for the same track, and a
    track is marked as running exactly while a future for it is
    unfinished. *)
Theorem in_flight_invariant (calls : list Call) (sys : State * list Job) :
  answersForTrack (m_pCoverArtDAO (fst sys)) ->
  inFlightConsistent sys ->
  inFlightConsistent (runCalls calls sys).
Proof.
  revert sys. induction calls as [|c calls IH]; intros sys Hanswers Hinv;
    [exact Hinv|].
  simpl. apply IH.
  - now rewrite step_keeps_dao.
  - now apply step_in_flight.
Qed.

End InFlight.

(** ** Cache keys *)









(** ** The object from construction on *)

Section Lifetime.
Context {utils : CoverArtUtils} {qt : Platform}.



Lemma changeCoverArt_queue (s : State) (coverArtDAO : CoverArtDAO)
    (trackDAO : TrackDAO) (trackId : Z) (location : string) :
  1 <= trackId ->
  m_pCoverArtDAO s = Some coverArtDAO ->
  m_pTrackDAO s = Some trackDAO ->
  m_queueOfUpdates (snd (changeCoverArt trackId location s))
  = delete trackId (m_queueOfUpdates s).
Proof.
  intros Hid Hc Ht.
  destruct (QString_isEmpty location) eqn:Hloc.
  { now rewrite (changeCoverArt_empty s coverArtDAO trackDAO). }
  destruct (QImg.isNull (decodedCover trackDAO trackId location)) eqn:Hnull.
  { now rewrite (changeCoverArt_null s coverArtDAO trackDAO). }
  rewrite (changeCoverArt_ok s coverArtDAO trackDAO trackId location Hid Hc Ht Hloc Hnull).
  cbn [snd].
  destruct (pixmapCache s !! _); [|destruct (QPixmapCache_accepts _)]; reflexivity.
Qed.

(** X23.  Every changeCoverArt call that passes the entry test (valid
    track, both DAOs set) removes the track's pending update, whether it
    then returns true or false; trackInDBHash for the track gives the
    empty string afterwards, and a request for the track is no longer
    overridden by the earlier discovery. *)
Theorem changeCoverArt_clears_pending (s : State) (coverArtDAO : CoverArtDAO)
    (trackDAO : TrackDAO) (trackId : Z) (location : string) :
  1 <= trackId ->
  m_pCoverArtDAO s = Some coverArtDAO ->
  m_pTrackDAO s = Some trackDAO ->
  let s' := snd (changeCoverArt trackId location s) in
  m_queueOfUpdates s' = delete trackId (m_queueOfUpdates s)
  /\ trackInDBHash trackId s' = (EmptyString, s')
  /\ (forall info, CoverInfo.trackId info = trackId ->
        pendingInfo (m_queueOfUpdates s') info = info).
Proof.
  intros Hid Hc Ht s'.
  assert (Hq : m_queueOfUpdates s' = delete trackId (m_queueOfUpdates s))
    by now apply (changeCoverArt_queue s coverArtDAO trackDAO).
  split; [exact Hq|]. split.
  - unfold trackInDBHash, bind, get, ret, QHash_value.
    now rewrite Hq, lookup_delete_eq.
  - intros info <-. unfold pendingInfo, QHash_contains.
    now rewrite Hq, lookup_delete_eq.
Qed.

End Lifetime.

(** ** The further properties on concrete inputs *)

(** The cached front cover is returned for track 1. *)
Lemma requestPixmap_cache_hit_witness :
  requestPixmap (qt := Demo.platform) Demo.requestFront Demo.naturalSize false true
    Demo.cachedFront
  = (Pixmap Demo.front, Demo.cachedFront).
Proof.
  exact (requestPixmap_cache_hit (qt := Demo.platform) Demo.cachedFront
           Demo.coverArtDAO Demo.requestFront Demo.naturalSize false true
           (Pixmap Demo.front) ltac:(simpl; lia) eq_refl
           ltac:(simpl; apply not_elem_of_empty) eq_refl).
Defined.

(** Nothing is cached yet for track 1. *)
Lemma requestPixmap_onlyCached_miss_witness :
  requestPixmap (qt := Demo.platform) Demo.request1 Demo.thumbnail true false
    Demo.ready
  = (QPix.null, Demo.ready).
Proof.
  exact (requestPixmap_onlyCached_miss (qt := Demo.platform) Demo.ready
           Demo.coverArtDAO Demo.request1 Demo.thumbnail false
           ltac:(simpl; lia) eq_refl eq_refl).
Defined.

(** A new object, and one with the cover-art DAO only. *)
Lemma unset_collaborator_rejected_witness :
  requestPixmap (qt := Demo.platform) Demo.request1 Demo.naturalSize false false
    CoverArtCache_new = (QPix.null, CoverArtCache_new)
  /\ changeCoverArt (utils := Demo.utils) (qt := Demo.platform) 1
       "/music/a/cover.jpg" Demo.noTrackDAO = (false, Demo.noTrackDAO).
Proof.
  split.
  - exact (proj1 (unset_collaborator_rejected (utils := Demo.utils)
                    (qt := Demo.platform) CoverArtCache_new)
             eq_refl Demo.request1 Demo.naturalSize false false).
  - exact (proj2 (unset_collaborator_rejected (utils := Demo.utils)
                    (qt := Demo.platform) Demo.noTrackDAO)
             (or_intror eq_refl) 1 "/music/a/cover.jpg").
Defined.

(** The cover of track 7 is removed. *)
Lemma changeCoverArt_empty_location_witness :
  fst (changeCoverArt (utils := Demo.utils) (qt := Demo.platform) 7 EmptyString
         Demo.pending7) = true
  /\ trace (snd (changeCoverArt (utils := Demo.utils) (qt := Demo.platform) 7
                   EmptyString Demo.pending7))
     = trace Demo.pending7 ++ [TrackDAO_updateCoverArt 7 (-1)].
Proof.
  destruct (changeCoverArt_empty_location (utils := Demo.utils) (qt := Demo.platform)
              Demo.pending7 Demo.coverArtDAO Demo.trackDAO 7
              ltac:(lia) eq_refl eq_refl) as (Hret & Htrace & _).
  split; [exact Hret | exact Htrace].
Defined.

(** The front cover is chosen for track 1. *)
Lemma changeCoverArt_success_witness :
  fst (changeCoverArt (utils := Demo.utils) (qt := Demo.platform) 1
         "/music/a/cover.jpg" Demo.ready) = true
  /\ m_runningIds (snd (changeCoverArt (utils := Demo.utils) (qt := Demo.platform) 1
                          "/music/a/cover.jpg" Demo.ready))
     = m_runningIds Demo.ready.
Proof.
  destruct (changeCoverArt_success (utils := Demo.utils) (qt := Demo.platform)
              Demo.ready Demo.coverArtDAO Demo.trackDAO 1 "/music/a/cover.jpg"
              ltac:(lia) eq_refl eq_refl eq_refl eq_refl) as (Hret & _ & Hrun & _).
  split; [exact Hret | exact Hrun].
Defined.

(** A successful change for track 7 leaves it without a pending update. *)
Lemma changeCoverArt_frame_witness :
  m_queueOfUpdates
    (snd (changeCoverArt (utils := Demo.utils) (qt := Demo.platform) 7
            "/music/a/cover.jpg" Demo.pending7)) !! 7 = None.
Proof.
  destruct (changeCoverArt_frame (utils := Demo.utils) (qt := Demo.platform)
              Demo.pending7 7 "/music/a/cover.jpg") as (_ & _ & _ & Htrue & _).
  exact (Htrue eq_refl).
Defined.

(** The destructor with one pending update. *)
Lemma updateDB_writes_whole_queue_witness :
  m_queueOfUpdates (snd (updateDB true Demo.pending7)) = ∅
  /\ trace (snd (updateDB true Demo.pending7))
     = trace Demo.pending7
         ++ [CoverArtDAO_saveCoverArtBatch (m_queueOfUpdates Demo.pending7);
             TrackDAO_updateCoverArtBatch
               (saveCoverArtBatch Demo.coverArtDAO (m_queueOfUpdates Demo.pending7))].
Proof.
  destruct (updateDB_writes_whole_queue Demo.pending7 Demo.coverArtDAO Demo.trackDAO
              true eq_refl eq_refl (or_introl eq_refl)) as (Htrace & Hqueue & _).
  split; [exact Hqueue | exact Htrace].
Defined.

(** One pending update is far below the threshold. *)
Lemma updateDB_does_nothing_witness :
  updateDB false Demo.pending7 = (tt, Demo.pending7).
Proof.
  refine (proj1 (updateDB_does_nothing Demo.pending7 false _)).
  right; right. split; [reflexivity | vm_compute; reflexivity].
Defined.

(** The front cover is cached already when another job brings it. *)
Lemma slots_keep_cached_pixmap_witness :
  pixmapCache
    (snd (imageFound (qt := Demo.platform)
            (FutureResult.mk 7 "/music/a/cover.jpg" "100105" Demo.naturalSize false
               (Image 100 100 "other"))
            Demo.cachedFront))
  = pixmapCache Demo.cachedFront.
Proof.
  destruct (slots_keep_cached_pixmap (qt := Demo.platform) Demo.cachedFront
              (FutureResult.mk 7 "/music/a/cover.jpg" "100105" Demo.naturalSize false
                 (Image 100 100 "other"))
              (Pixmap Demo.front) eq_refl eq_refl) as (_ & Hfound & _).
  exact Hfound.
Defined.

(** The first discovery for track 7. *)
Lemma imageFound_enqueues_witness :
  m_queueOfUpdates (snd (imageFound (qt := Demo.platform) Demo.discovery7 Demo.ready))
  = <[7 := ("/music/a/folder.jpg", "200206")]> (m_queueOfUpdates Demo.ready).
Proof.
  refine (proj1 (imageFound_enqueues (qt := Demo.platform) Demo.ready Demo.discovery7
                   eq_refl _)).
  right; right. vm_compute; reflexivity.
Defined.

(** The discovery for track 7 is the 500th. *)
Lemma imageFound_flushes_at_threshold_witness :
  size Demo.nearlyFull = 499%nat
  /\ m_queueOfUpdates
       (snd (imageFound (qt := Demo.platform) Demo.discovery7 Demo.nearlyFullState))
     = ∅.
Proof.
  split; [vm_compute; reflexivity|].
  refine (proj1 (imageFound_flushes_at_threshold (qt := Demo.platform)
                   Demo.nearlyFullState Demo.coverArtDAO Demo.trackDAO Demo.discovery7
                   _ eq_refl eq_refl _)).
  - vm_compute; reflexivity.
  - vm_compute; discriminate.
Defined.

(** A track with no cover anywhere: the empty location is decoded. *)
Lemma searchImage_directory_fallback_witness :
  fst (searchImage (utils := Demo.utils) (qt := Demo.platform) Demo.plainTrack
         Demo.naturalSize false [])
  = FutureResult.mk 3 EmptyString EmptyString Demo.naturalSize false NullImage.
Proof.
  exact (f_equal fst
           (searchImage_directory_fallback (utils := Demo.utils) (qt := Demo.platform)
              Demo.plainTrack Demo.naturalSize false [] eq_refl)).
Defined.

(** Track 1 with its cover file known: request, load job, request. *)
Lemma load_round_trip_witness :
  let s1 := snd (requestPixmap (qt := Demo.platform) Demo.requestFront
                   Demo.naturalSize false false Demo.ready) in
  let job := LoadJob
               (CoverArtInfo.mk 1 "/music/a/cover.jpg" "100105" EmptyString
                  EmptyString EmptyString "/music/a/song.mp3")
               Demo.naturalSize false in
  let s2 := snd (finished (utils := Demo.utils) (qt := Demo.platform) job s1) in
  m_runningIds s2 = m_runningIds Demo.ready
  /\ fst (requestPixmap (qt := Demo.platform) Demo.requestFront Demo.naturalSize
            true true s2) = Pixmap Demo.front.
Proof.
  intros s1 job s2.
  destruct (load_round_trip (utils := Demo.utils) (qt := Demo.platform) Demo.ready
              Demo.coverArtDAO Demo.requestFront Demo.naturalSize false true true
              ltac:(simpl; lia) eq_refl ltac:(simpl; apply not_elem_of_empty)
              eq_refl eq_refl eq_refl eq_refl)
    as (_ & Hrun & _ & _ & Hagain).
  split; [exact Hrun|].
  exact (f_equal fst Hagain).
Defined.

(** Track 1 without a hash: request, search job, request. *)
Lemma search_round_trip_witness :
  let s1 := snd (requestPixmap (qt := Demo.platform) Demo.request1
                   Demo.naturalSize false false Demo.ready) in
  let s2 := snd (finished (utils := Demo.utils) (qt := Demo.platform)
                   (SearchJob Demo.songTrack Demo.naturalSize false) s1) in
  m_queueOfUpdates s2 !! 1 = Some (ID3TAG, "300308")
  /\ fst (requestPixmap (qt := Demo.platform) Demo.request1 Demo.naturalSize
            true true s2) = Pixmap (Image 300 300 "embedded").
Proof.
  intros s1 s2.
  assert (Hquiet : m_pTrackDAO Demo.ready = None
                   \/ Z.of_nat (size (m_queueOfUpdates Demo.ready)) < 499)
    by (right; vm_compute; reflexivity).
  destruct (search_round_trip (utils := Demo.utils) (qt := Demo.platform) Demo.ready
              Demo.coverArtDAO Demo.request1 Demo.naturalSize false
              ltac:(simpl; lia) eq_refl ltac:(simpl; apply not_elem_of_empty)
              eq_refl eq_refl eq_refl eq_refl Hquiet eq_refl eq_refl)
    as (_ & _ & Hqueue & _ & _ & Hagain).
  split.
  - etrans; [exact (f_equal (fun q => q !! 1) Hqueue) | reflexivity].
  - exact (f_equal fst (Hagain Demo.request1 true true eq_refl)).
Defined.

(** The DAO's record for track 1 names track 1: the track is released. *)
Lemma search_releases_reported_track_witness :
  let s1 := snd (requestPixmap (qt := Demo.platform) Demo.request1
                   Demo.naturalSize false false Demo.ready) in
  let s2 := snd (finished (utils := Demo.utils) (qt := Demo.platform)
                   (SearchJob Demo.songTrack Demo.naturalSize false) s1) in
  m_runningIds s2 = ({[1]} ∪ m_runningIds Demo.ready) ∖ {[1]}.
Proof.
  intros s1 s2.
  exact (proj1 (search_releases_reported_track (utils := Demo.utils)
                  (qt := Demo.platform) Demo.ready Demo.coverArtDAO Demo.request1
                  Demo.naturalSize false
                  ltac:(simpl; lia) eq_refl ltac:(simpl; apply not_elem_of_empty)
                  eq_refl eq_refl)).
Defined.

(** Two requests for track 1, a change for track 7, the job finishing and
    a third request. *)
Lemma in_flight_invariant_witness :
  inFlightConsistent
    (runCalls (utils := Demo.utils) (qt := Demo.platform)
       [Call_requestPixmap Demo.request1 Demo.naturalSize false false;
        Call_requestPixmap Demo.request1 Demo.thumbnail false false;
        Call_changeCoverArt 7 "/music/a/cover.jpg";
        Future_finished 0;
        Call_requestPixmap Demo.request1 Demo.thumbnail false false]
       (Demo.ready, [])).
Proof.
  apply in_flight_invariant.
  - intros d [= <-] trackId. reflexivity.
  - split; [apply NoDup_nil_2 | reflexivity].
Defined.



(** A broken file chosen for track 7: the pending location is gone. *)
Lemma changeCoverArt_clears_pending_witness :
  fst (trackInDBHash 7 Demo.pending7) = "/music/a/cover.jpg"
  /\ fst (trackInDBHash 7
            (snd (changeCoverArt (utils := Demo.utils) (qt := Demo.platform) 7
                    "/music/a/broken.jpg" Demo.pending7))) = EmptyString.
Proof.
  split; [reflexivity|].
  destruct (changeCoverArt_clears_pending (utils := Demo.utils) (qt := Demo.platform)
              Demo.pending7 Demo.coverArtDAO Demo.trackDAO 7 "/music/a/broken.jpg"
              ltac:(lia) eq_refl eq_refl) as (_ & Hloc & _).
  exact (f_equal fst Hloc).
Defined.
